(** * Task-assignment server: notification dispatch, token registry, registration

    A shallow embedding of the JavaScript sources

      - models/User.js                  (the user schema)
      - service/notificationService.js  (sendToToken, sendNotificationToUserFromDb)
      - routes/tasks.js                 (sendTaskAssignedNotifications, POST /,
                                         POST /device-token)
      - routes/auth.js                  (POST /register)

    The code is asynchronous but strictly sequential (every call is awaited
    before the next one starts), so a handler is a function from the world
    before the request to a result and the world after it.  The world holds
    the two MongoDB collections, a clock that counts the calls made to the
    outside (storage and push gateway) and the log of those calls.  What the
    outside answers is fixed by an environment: which storage calls fail and
    what the gateway replies to each send. *)

From Stdlib Require Import String Ascii List Bool Arith Lia DecimalString.
Import ListNotations.
Open Scope string_scope.

(* ===================================================================== *)
(** ** JavaScript values *)
(* ===================================================================== *)

(** [!s] is true for the empty string (and for [undefined], which the model
    represents by the empty string where a field is a plain string). *)
Definition truthy (s : string) : bool := negb (s =? "").

(** [s || d] *)
Definition or_default (s d : string) : string := if truthy s then s else d.

(** [o || d] for a field that may be absent. *)
Definition opt_or_default (o : option string) (d : string) : string :=
  match o with
  | Some s => or_default s d
  | None => d
  end.

Definition string_of_nat (n : nat) : string :=
  NilEmpty.string_of_uint (Nat.to_uint n).

(** [Array.from(new Set(l))]: the first occurrence of every value, in order. *)
Fixpoint uniq_from (seen l : list string) : list string :=
  match l with
  | [] => []
  | x :: r =>
      if existsb (String.eqb x) seen then uniq_from seen r
      else x :: uniq_from (x :: seen) r
  end.

Definition uniq (l : list string) : list string := uniq_from [] l.

(** The white space that [String.prototype.trim] removes: the WhiteSpace
    and LineTerminator code points of ECMAScript.  A string is taken as the
    UTF-8 bytes of its text, so a code point is one, two or three bytes:
    U+0009..U+000D and U+0020; U+00A0; U+1680, U+2000..U+200A, U+2028,
    U+2029, U+202F, U+205F, U+3000 and U+FEFF. *)
Definition is_space (c : ascii) : bool :=
  match nat_of_ascii c with
  | 9 | 10 | 11 | 12 | 13 | 32 => true
  | _ => false
  end.

Definition is_space2 (a b : ascii) : bool :=
  ((nat_of_ascii a =? 194) && (nat_of_ascii b =? 160))%nat.

Definition is_space3 (a b c : ascii) : bool :=
  let x := nat_of_ascii a in
  let y := nat_of_ascii b in
  let z := nat_of_ascii c in
  ((x =? 225) && (y =? 154) && (z =? 128)
   || (x =? 226) && (y =? 128)
      && ((128 <=? z) && (z <=? 138) || (z =? 168) || (z =? 169) || (z =? 175))
   || (x =? 226) && (y =? 129) && (z =? 159)
   || (x =? 227) && (y =? 128) && (z =? 128)
   || (x =? 239) && (y =? 187) && (z =? 191))%nat.

(** [s.trim() === '']: the string has white space only. *)
Fixpoint blank (s : string) : bool :=
  match s with
  | EmptyString => true
  | String a r =>
      if is_space a then blank r
      else
        match r with
        | EmptyString => false
        | String b r2 =>
            if is_space2 a b then blank r2
            else
              match r2 with
              | EmptyString => false
              | String c r3 => is_space3 a b c && blank r3
              end
        end
  end.

(* ===================================================================== *)
(** ** Documents (models/User.js, and the Task fields the routes use) *)
(* ===================================================================== *)

(** An element of [fcmTokens].  The schema does not require [token]; an
    entry without one has the empty string here (both are falsy). *)
Record TokenEntry := mkTokenEntry {
  token : string;
  platform : string;
  createdAt : nat
}.

Record User := mkUser {
  _id : string;
  name : string;
  email : string;
  password : string;
  role : string;
  fcmTokens : list TokenEntry;
  fcmToken : option string        (* legacy single token; None when unset *)
}.

Record Task := mkTask {
  task_id : string;
  title : string;
  description : string;
  assignedTo : list string;
  createdBy : string
}.

Definition set_fcmTokens (u : User) (l : list TokenEntry) : User :=
  mkUser (_id u) (name u) (email u) (password u) (role u) l (fcmToken u).

Definition set_fcmToken (u : User) (o : option string) : User :=
  mkUser (_id u) (name u) (email u) (password u) (role u) (fcmTokens u) o.

(** The schema validators that [save()] runs: the three required strings and
    [role: { enum: ['admin','user'] }]. *)
Definition role_enum : list string := ["admin"; "user"].

Definition validate_user (u : User) : bool :=
  truthy (name u) && truthy (email u) && truthy (password u)
  && existsb (String.eqb (role u)) role_enum.

(* ===================================================================== *)
(** ** The outside world *)
(* ===================================================================== *)

(** The payload built by the dispatcher and the message posted to FCM. *)
Record Payload := mkPayload {
  p_title : string;
  p_body : string;
  p_data : list (string * string)
}.

(** What one call of [sendToToken] meets: [getAccessToken] throws, [fetch]
    throws, or the gateway answers with a status and a body. *)
Inductive GatewayReply :=
| AccessTokenError (msg : string)
| FetchError (msg : string)
| HttpReply (status : nat) (body : string).

Inductive Event :=
| EvFind (ids : list string)           (* User.find({_id: {$in: ids}}) *)
| EvFindById (id : string)             (* User.findById(id) *)
| EvFindOne (mail : string)            (* User.findOne({email}) *)
| EvSend (tk : string) (msg : Payload) (* sendToToken past its guard *)
| EvPull (tk : string)                 (* updateMany ... $pull *)
| EvUnset (tk : string)                (* updateMany ... $unset *)
| EvPush (id tk : string)              (* updateOne ... $push *)
| EvSetLegacy (id tk : string)         (* findByIdAndUpdate ... $set *)
| EvSaveTask (id : string)
| EvPopulate (path : string)
| EvSaveUser (id : string).

Record JsError := mkError {
  message : string;
  response : option string
}.

Definition Error (msg : string) : JsError := mkError msg None.

Record Env := mkEnv {
  storage_fails : nat -> bool;            (* does the call made at this clock fail *)
  gateway : nat -> string -> GatewayReply;(* the reply to a send made at this clock *)
  fresh_id : nat -> string;               (* the ObjectId generated at this clock *)
  digest : string -> string;              (* the variable part of a bcrypt hash *)
  jwt_secret : string                     (* process.env.JWT_SECRET, "" when unset *)
}.

Record World := mkWorld {
  users : list User;
  tasks : list Task;
  clock : nat;
  trace : list Event
}.

(** One call to the outside: it is logged and the clock advances. *)
Definition called (ev : Event) (w : World) : World :=
  mkWorld (users w) (tasks w) (S (clock w)) (trace w ++ [ev]).

Definition set_users (w : World) (l : list User) : World :=
  mkWorld l (tasks w) (clock w) (trace w).

Definition set_tasks (w : World) (l : list Task) : World :=
  mkWorld (users w) l (clock w) (trace w).

(* ===================================================================== *)
(** ** Computations that may throw *)
(* ===================================================================== *)

(** A thrown error keeps the effects made before it. *)
Definition M (A : Type) : Type := World -> (JsError + A) * World.

Definition ret {A} (a : A) : M A := fun w => (inr a, w).

Definition throw {A} (e : JsError) : M A := fun w => (inl e, w).

Definition bind {A B} (m : M A) (k : A -> M B) : M B :=
  fun w =>
    match m w with
    | (inr a, w1) => k a w1
    | (inl e, w1) => (inl e, w1)
    end.

(** [try { m } catch (e) { h e }] *)
Definition try_catch {A} (m : M A) (h : JsError -> M A) : M A :=
  fun w =>
    match m w with
    | (inr a, w1) => (inr a, w1)
    | (inl e, w1) => h e w1
    end.

Declare Scope js_scope.
Delimit Scope js_scope with js.
Notation "x <- m ;; k" := (bind m (fun x => k))
  (at level 61, m at next level, right associativity) : js_scope.
Notation "m ;; k" := (bind m (fun _ => k))
  (at level 61, right associativity) : js_scope.
Open Scope js_scope.

(** [for (const x of l) { ... }] where every round pushes one value. *)
Fixpoint mapM {A B} (f : A -> M B) (l : list A) : M (list B) :=
  match l with
  | [] => ret []
  | x :: r => y <- f x ;; ys <- mapM f r ;; ret (y :: ys)
  end.

Fixpoint forEach {A} (f : A -> M unit) (l : list A) : M unit :=
  match l with
  | [] => ret tt
  | x :: r => f x ;; forEach f r
  end.

(* ===================================================================== *)
(** ** Storage: the queries and updates the code issues *)
(* ===================================================================== *)

Definition has_id (id : string) (u : User) : bool := _id u =? id.

Definition holds_token (tk : string) (u : User) : bool :=
  existsb (fun e => token e =? tk) (fcmTokens u).

Definition has_legacy (tk : string) (u : User) : bool :=
  match fcmToken u with
  | Some t => t =? tk
  | None => false
  end.

(** [{ _id: { $in: ids } }] *)
Definition find_in (ids : list string) (db : list User) : list User :=
  filter (fun u => existsb (String.eqb (_id u)) ids) db.

Definition find_by_id (id : string) (db : list User) : option User :=
  find (has_id id) db.

Definition find_by_email (mail : string) (db : list User) : option User :=
  find (fun u => email u =? mail) db.

(** [updateMany({'fcmTokens.token': tk}, {$pull: {fcmTokens: {token: tk}}})] *)
Definition pull_entry (tk : string) (u : User) : User :=
  set_fcmTokens u (filter (fun e => negb (token e =? tk)) (fcmTokens u)).

Definition pull_token (tk : string) (db : list User) : list User :=
  map (fun u => if holds_token tk u then pull_entry tk u else u) db.

(** [updateMany({fcmToken: tk}, {$unset: {fcmToken: ''}})] *)
Definition unset_legacy (tk : string) (db : list User) : list User :=
  map (fun u => if has_legacy tk u then set_fcmToken u None else u) db.

(** [updateOne(filter, update)]: the first document that matches. *)
Fixpoint update_one (p : User -> bool) (f : User -> User) (db : list User)
  : list User :=
  match db with
  | [] => []
  | u :: r => if p u then f u :: r else u :: update_one p f r
  end.

(** [updateOne({_id: id, 'fcmTokens.token': {$ne: tk}}, {$push: {fcmTokens: e}})] *)
Definition push_token (id : string) (e : TokenEntry) (db : list User) : list User :=
  update_one (fun u => has_id id u && negb (holds_token (token e) u))
             (fun u => set_fcmTokens u (fcmTokens u ++ [e])) db.

(** [findByIdAndUpdate(id, {$set: {fcmToken: tk}})] *)
Definition set_legacy (id tk : string) (db : list User) : list User :=
  update_one (has_id id) (fun u => set_fcmToken u (Some tk)) db.

Section Program.

Variable env : Env.

(** A storage call: logged, then it either rejects or runs. *)
Definition storage {A} (ev : Event) (op : World -> A * World) : M A :=
  fun w =>
    if storage_fails env (clock w)
    then (inl (Error "storage error"), called ev w)
    else let (a, w1) := op (called ev w) in (inr a, w1).

Definition query {A} (ev : Event) (q : list User -> A) : M A :=
  storage ev (fun w => (q (users w), w)).

Definition update (ev : Event) (f : list User -> list User) : M unit :=
  storage ev (fun w => (tt, set_users w (f (users w)))).

Definition User_find (ids : list string) : M (list User) :=
  query (EvFind ids) (find_in ids).

Definition User_findById (id : string) : M (option User) :=
  query (EvFindById id) (find_by_id id).

Definition User_findOne (mail : string) : M (option User) :=
  query (EvFindOne mail) (find_by_email mail).

(* ===================================================================== *)
(** ** service/notificationService.js *)
(* ===================================================================== *)

(** [res.ok] *)
Definition res_ok (status : nat) : bool :=
  ((200 <=? status) && (status <=? 299))%nat.

(** The [notification] and [data] parts of the posted message. *)
Definition fcm_message (payload : Payload) : Payload :=
  mkPayload (or_default (p_title payload) "Notification") (p_body payload)
            (p_data payload).

Definition sendToToken (tk : string) (payload : Payload) : M string :=
  if negb (truthy tk) then throw (Error "Missing registration token")
  else fun w =>
    let w1 := called (EvSend tk (fcm_message payload)) w in
    match gateway env (clock w) tk with
    | AccessTokenError msg => (inl (Error msg), w1)
    | FetchError msg => (inl (Error msg), w1)
    | HttpReply status body =>
        if res_ok status then (inr body, w1)
        else (inl (mkError ("FCM send failed: HTTP " ++ string_of_nat status
                              ++ " - " ++ body) (Some body)), w1)
    end.

(** One element of the array [sendNotificationToUserFromDb] returns. *)
Record SendResult := mkSendResult {
  r_token : string;
  r_ok : bool;
  r_resp : option string;
  r_error : string;               (* "" on success, where the field is absent *)
  r_response : option string
}.

(** The tokens gathered from a user document: the truthy [fcmTokens]
    entries, then the legacy token when it is a non-empty string. *)
Definition gather_tokens (u : User) : list string :=
  filter truthy (map token (fcmTokens u))
  ++ match fcmToken u with
     | Some t => if truthy t then [t] else []
     | None => []
     end.

(** [err.message || err.toString()] *)
Definition error_text (e : JsError) : string := or_default (message e) "Error".

Definition send_one (payload : Payload) (tk : string) : M SendResult :=
  try_catch
    (r <- sendToToken tk payload ;;
     ret (mkSendResult tk true (Some r) "" None))
    (fun err => ret (mkSendResult tk false None (error_text err) (response err))).

(** The model argument is always the [User] model, so the guard on it never
    fires and is left out; the guard on [userId] is kept. *)
Definition sendNotificationToUserFromDb (userId : string) (payload : Payload)
  : M (list SendResult) :=
  if negb (truthy userId) then throw (Error "userId required")
  else
    found <- User_findById userId ;;
    match found with
    | None => throw (Error ("User not found: " ++ userId))
    | Some user =>
        let tokens := gather_tokens user in
        if (length tokens =? 0)%nat
        then throw (Error ("No FCM tokens found for user " ++ userId))
        else mapM (send_one payload) (uniq tokens)
    end.

(* ===================================================================== *)
(** ** routes/tasks.js: the dispatcher *)
(* ===================================================================== *)

(** One element of [sendSummary]: [{userId, ok, results, failed}], or
    [{userId, ok: false, error}] when the service threw for that user. *)
Inductive SummaryEntry :=
| Sent (userId : string) (ok : bool) (results failed : list SendResult)
| Threw (userId : string) (error : string).

Record FailedToken := mkFailedToken {
  f_token : string;
  f_reason : string
}.

(** What the dispatcher returns: [{sent: 0, failed: 0, details: []}] when it
    skips, [{summary, failedTokens}] otherwise. *)
Inductive DispatchReport :=
| Skipped
| Report (summary : list SummaryEntry) (failedTokens : list FailedToken).

Definition task_payload (task : Task) : Payload :=
  mkPayload ("New Task: " ++ title task)
            (or_default (description task) "You have been assigned a new task")
            [("taskId", task_id task); ("taskTitle", title task)].

(** The body of [for (const u of users)].  The [error] of a caught entry
    is [sendErr.message || sendErr]; every error thrown here has a message. *)
Definition notify_user (task : Task) (u : User) : M SummaryEntry :=
  let uid := _id u in
  try_catch
    (results <- sendNotificationToUserFromDb uid (task_payload task) ;;
     let failed := filter (fun r => negb (r_ok r)) results in
     ret (Sent uid (length failed =? 0)%nat results failed))
    (fun sendErr => ret (Threw uid (error_text sendErr))).

(** The [failed] results of one entry that carry a token. *)
Definition failed_of (entry : SummaryEntry) : list FailedToken :=
  match entry with
  | Sent _ _ _ failed =>
      flat_map (fun f => if truthy (r_token f)
                         then [mkFailedToken (r_token f)
                                             (or_default (r_error f) "unknown")]
                         else []) failed
  | Threw _ _ => []
  end.

(** The two updates that take a token out of the registry. *)
Definition removeToken (tk : string) : M unit :=
  update (EvPull tk) (pull_token tk) ;;
  update (EvUnset tk) (unset_legacy tk).

Definition cleanup (failedTokensToCleanup : list FailedToken) : M unit :=
  if (0 <? length failedTokensToCleanup)%nat
  then forEach (fun f => try_catch (removeToken (f_token f)) (fun _ => ret tt))
               failedTokensToCleanup
  else ret tt.

(** [assignedUserIds] is [None] when the argument is not an array. *)
Definition sendTaskAssignedNotifications (task : Task)
    (assignedUserIds : option (list string)) : M DispatchReport :=
  match assignedUserIds with
  | None => ret Skipped
  | Some [] => ret Skipped
  | Some ids =>
      found <- User_find ids ;;
      sendSummary <- mapM (notify_user task) found ;;
      let failedTokensToCleanup := flat_map failed_of sendSummary in
      cleanup failedTokensToCleanup ;;
      ret (Report sendSummary failedTokensToCleanup)
  end.

(* ===================================================================== *)
(** ** routes/tasks.js and routes/auth.js: the endpoints *)
(* ===================================================================== *)

(** The signed session credential: its payload and the key that signed it. *)
Record Jwt := mkJwt {
  jwt_id : string;
  jwt_role : string;
  jwt_key : string
}.

Inductive Body :=
| ErrorBody (error : string)           (* { error } *)
| MsgBody (msg : string)               (* { msg } *)
| Text (s : string)                    (* res.send(s) *)
| TaskCreated (task : Task)            (* { message: 'Task created', task } *)
| Registered (credential : Jwt) (id name email role : string).

Record Response := mkResponse {
  status : nat;
  body : Body
}.

(** The outer [try { ... } catch (err) { res.status(500)... }] of a handler. *)
Definition respond (m : M Response) (on_error : Response)
  : World -> Response * World :=
  fun w =>
    match m w with
    | (inr r, w1) => (r, w1)
    | (inl _, w1) => (on_error, w1)
    end.

Definition now : M nat := fun w => (inr (clock w), w).

(** [req.body.assignedTo] *)
Inductive AssignedTo :=
| NoAssignee
| OneAssignee (id : string)
| Assignees (ids : list string).

Definition assignedArr (a : AssignedTo) : list string :=
  match a with
  | Assignees ids => ids
  | OneAssignee id => if truthy id then [id] else []
  | NoAssignee => []
  end.

Definition Task_save (t : Task) : M unit :=
  storage (EvSaveTask (task_id t))
          (fun w => (tt, set_tasks w (tasks w ++ [t]))).

(** [newTask.populate(path, ...)]: one read of the users that the path
    names; no query is made when it names nobody. *)
Definition populate (path : string) (ids : list string) : M unit :=
  match ids with
  | [] => ret tt
  | _ :: _ => storage (EvPopulate path) (fun w => (tt, w))
  end.

(** The value of [createdBy]: [req.user && req.user.id]. *)
Definition creator (user_id : string) : list string :=
  if truthy user_id then [user_id] else [].

(** POST /api/tasks, behind the [auth] middleware that supplies [req.user.id]. *)
Definition post_tasks (user_id : string) (b_title b_description : string)
    (b_assignedTo : AssignedTo) : World -> Response * World :=
  respond
    (if negb (truthy b_title) || blank b_title
     then ret (mkResponse 400 (ErrorBody "title is required"))
     else
       let arr := assignedArr b_assignedTo in
       t <- now ;;
       let newTask := mkTask (fresh_id env t) b_title (or_default b_description "")
                             arr user_id in
       Task_save newTask ;;
       populate "assignedTo" arr ;;
       populate "createdBy" (creator user_id) ;;
       try_catch (sendTaskAssignedNotifications newTask (Some arr) ;; ret tt)
                 (fun _ => ret tt) ;;
       ret (mkResponse 201 (TaskCreated newTask)))
    (mkResponse 500 (ErrorBody "Server error")).

(** POST /api/tasks/device-token *)
Definition post_device_token (user_id : string) (b_fcmToken b_platform : string)
  : World -> Response * World :=
  respond
    (if negb (truthy b_fcmToken)
     then ret (mkResponse 400 (ErrorBody "fcmToken required"))
     else
       t <- now ;;
       update (EvPush user_id b_fcmToken)
              (push_token user_id
                 (mkTokenEntry b_fcmToken (or_default b_platform "") t)) ;;
       update (EvSetLegacy user_id b_fcmToken) (set_legacy user_id b_fcmToken) ;;
       ret (mkResponse 200 (MsgBody "Token saved")))
    (mkResponse 500 (Text "Server error")).

(** [bcrypt.hash(password, salt)] with a cost of 10; it throws when the
    password is not a string. *)
Definition bcrypt_hash (pw : option string) : M string :=
  match pw with
  | Some p => ret ("$2a$10$" ++ digest env p)
  | None => throw (Error "Illegal arguments: undefined, string")
  end.

(** [user.save()]: the schema validators run first, then the insert. *)
Definition User_save (u : User) : M unit :=
  if validate_user u
  then storage (EvSaveUser (_id u))
               (fun w => (tt, set_users w (users w ++ [u])))
  else throw (Error "User validation failed").

Definition jwt_sign (id r : string) : M Jwt :=
  if truthy (jwt_secret env) then ret (mkJwt id r (jwt_secret env))
  else throw (Error "secretOrPrivateKey must have a value").

(** POST /api/auth/register; no middleware stands before it.  [b_role] is
    [None] when the body has no role. *)
Definition post_register (b_name b_email : string) (b_password b_role : option string)
  : World -> Response * World :=
  respond
    (existing <- User_findOne b_email ;;
     match existing with
     | Some _ => ret (mkResponse 400 (MsgBody "User already exists"))
     | None =>
         hash <- bcrypt_hash b_password ;;
         t <- now ;;
         let user := mkUser (fresh_id env t) b_name b_email hash
                            (opt_or_default b_role "user") [] None in
         User_save user ;;
         credential <- jwt_sign (_id user) (role user) ;;
         ret (mkResponse 200
                (Registered credential (_id user) (name user) (email user)
                            (role user)))
     end)
    (mkResponse 500 (Text "Server error")).

(* ===================================================================== *)
(** ** routes/users.js: the token endpoints of the user routes *)
(* ===================================================================== *)

(** POST /api/users/device-token: the conditional push alone; the legacy
    field is not written and [createdAt] takes the schema's default, the
    time of the call. *)
Definition users_post_device_token (user_id b_fcmToken b_platform : string)
  : World -> Response * World :=
  respond
    (if negb (truthy b_fcmToken)
     then ret (mkResponse 400 (ErrorBody "fcmToken required"))
     else
       t <- now ;;
       update (EvPush user_id b_fcmToken)
              (push_token user_id
                 (mkTokenEntry b_fcmToken (or_default b_platform "") t)) ;;
       ret (mkResponse 200 (MsgBody "Token saved")))
    (mkResponse 500 (ErrorBody "Server error")).

(** [updateOne({_id: id}, {$pull: {fcmTokens: {token: tk}}})] *)
Definition pull_own (id tk : string) (db : list User) : list User :=
  update_one (has_id id) (pull_entry tk) db.

(** POST /api/users/remove-token.  The call is logged as a pull of the
    value. *)
Definition users_post_remove_token (user_id b_fcmToken : string)
  : World -> Response * World :=
  respond
    (if negb (truthy b_fcmToken)
     then ret (mkResponse 400 (ErrorBody "fcmToken required"))
     else
       update (EvPull b_fcmToken) (pull_own user_id b_fcmToken) ;;
       ret (mkResponse 200 (MsgBody "Token removed")))
    (mkResponse 500 (ErrorBody "Server error")).

(* ===================================================================== *)
(** ** routes/auth.js: login; seedAdmin.js *)
(* ===================================================================== *)

(** [bcrypt.compare(password, hash)]: whether [hash] is what hashing the
    password gives; it throws when the password is not a string. *)
Definition bcrypt_compare (pw : option string) (hash : string) : M bool :=
  match pw with
  | Some p => ret (hash =? "$2a$10$" ++ digest env p)
  | None => throw (Error "Illegal arguments: undefined, string")
  end.

(** POST /api/auth/login *)
Definition post_login (b_email : string) (b_password : option string)
  : World -> Response * World :=
  respond
    (found <- User_findOne b_email ;;
     match found with
     | None => ret (mkResponse 400 (MsgBody "Invalid credentials"))
     | Some user =>
         isMatch <- bcrypt_compare b_password (password user) ;;
         if negb isMatch
         then ret (mkResponse 400 (MsgBody "Invalid credentials"))
         else
           credential <- jwt_sign (_id user) (role user) ;;
           ret (mkResponse 200
                  (Registered credential (_id user) (name user) (email user)
                              (role user)))
     end)
    (mkResponse 500 (Text "Server error")).

(** [run()] of seedAdmin.js on a connected database; the result is the exit
    code of the process. *)
Definition seedAdmin : World -> nat * World :=
  fun w =>
    match (existing <- User_findOne "admin@example.com" ;;
           match existing with
           | Some _ => ret tt
           | None =>
               hash <- bcrypt_hash (Some "Admin@123") ;;
               t <- now ;;
               User_save (mkUser (fresh_id env t) "Admin" "admin@example.com"
                                 hash "admin" [] None)
           end) w with
    | (inr _, w1) => (0, w1)
    | (inl _, w1) => (1, w1)
    end.

End Program.

(* ===================================================================== *)
(** ** What the properties speak about *)
(* ===================================================================== *)



(** The calls of a kind in a log. *)
Definition count (c : Event -> bool) (t : list Event) : nat :=
  length (filter c t).

Definition is_send (ev : Event) : bool :=
  match ev with EvSend _ _ => true | _ => false end.


(** The storage round-trips that read users: [find] and [findById]. *)
Definition is_lookup (ev : Event) : bool :=
  match ev with EvFind _ | EvFindById _ => true | _ => false end.

Definition is_removal (ev : Event) : bool :=
  match ev with EvPull _ | EvUnset _ => true | _ => false end.

(** A user record holds a token in its collection or in the legacy field. *)
Definition holds (tk : string) (u : User) : bool :=
  holds_token tk u || has_legacy tk u.

(** The storage never fails. *)
Definition reliable (env : Env) : Prop := forall n, storage_fails env n = false.

(* ===================================================================== *)
(** ** Sample data *)
(* ===================================================================== *)

Module Sample.

Definition U1 : User :=
  mkUser "u1" "Ann" "ann@example.com" "$2a$10$x" "user"
         [mkTokenEntry "tokA" "android" 0] None.

Definition U2 : User :=
  mkUser "u2" "Bob" "bob@example.com" "$2a$10$y" "user"
         [mkTokenEntry "tokA" "android" 0; mkTokenEntry "tokB" "ios" 1] None.

Definition U3 : User :=
  mkUser "u3" "Cy" "cy@example.com" "$2a$10$z" "user" [] None.

Definition start : World := mkWorld [U1; U2; U3] [] 0 [].

Definition task : Task := mkTask "t1" "Fix the build" "" ["u1"; "u2"] "u0".

(** A gateway that accepts every token but "tokB", for which it gives [r]. *)
Definition gw (r : GatewayReply) (_ : nat) (tk : string) : GatewayReply :=
  if tk =? "tokB" then r else HttpReply 200 "{ok}".

Definition env_with (fails : nat -> bool) (r : GatewayReply) : Env :=
  mkEnv fails (gw r) (fun n => "id" ++ string_of_nat n) (fun p => p) "secret".

Definition never (_ : nat) : bool := false.

Definition only (k n : nat) : bool := (n =? k)%nat.

End Sample.

(* ===================================================================== *)
(** ** Computations: running, not throwing, what they leave alone *)
(* ===================================================================== *)

Lemma bind_run {A B} (m : M A) (k : A -> M B) w a w1 :
  m w = (inr a, w1) -> bind m k w = k a w1.
Proof. intros H. unfold bind. now rewrite H. Qed.

Lemma bind_throw {A B} (m : M A) (k : A -> M B) w e w1 :
  m w = (inl e, w1) -> bind m k w = (inl e, w1).
Proof. intros H. unfold bind. now rewrite H. Qed.

(** [m] returns from every world. *)
Definition total {A} (m : M A) : Prop := forall w, exists a, fst (m w) = inr a.

Lemma total_ret {A} (a : A) : total (ret a).
Proof. intros w. now exists a. Qed.

Lemma total_bind {A B} (m : M A) (k : A -> M B) :
  total m -> (forall a, total (k a)) -> total (bind m k).
Proof.
  intros Hm Hk w. destruct (Hm w) as [a Ha]. unfold bind.
  destruct (m w) as [[e|a'] w1]; simpl in Ha; [discriminate|].
  apply Hk.
Qed.

Lemma total_try_catch {A} (m : M A) (h : JsError -> M A) :
  (forall e, total (h e)) -> total (try_catch m h).
Proof.
  intros Hh w. unfold try_catch.
  destruct (m w) as [[e|a] w1]; [apply Hh|now exists a].
Qed.

Lemma total_mapM {A B} (f : A -> M B) l :
  (forall x, total (f x)) -> total (mapM f l).
Proof.
  intros Hf. induction l as [|x r IH]; simpl.
  - apply total_ret.
  - apply total_bind; [apply Hf|]. intros y.
    apply total_bind; [apply IH|]. intros ys. apply total_ret.
Qed.

Lemma total_forEach {A} (f : A -> M unit) l :
  (forall x, total (f x)) -> total (forEach f l).
Proof.
  intros Hf. induction l as [|x r IH]; simpl.
  - apply total_ret.
  - apply total_bind; [apply Hf|]. intros _. apply IH.
Qed.

(** A property of the world that [m] carries from before to after, whether
    it returns or throws. *)
Definition keeps {A} (I : World -> Prop) (m : M A) : Prop :=
  forall w, I w -> I (snd (m w)).

Lemma keeps_ret {A} I (a : A) : keeps I (ret a).
Proof. now intros w H. Qed.

Lemma keeps_throw {A} I e : keeps I (@throw A e).
Proof. now intros w H. Qed.

Lemma keeps_bind {A B} I (m : M A) (k : A -> M B) :
  keeps I m -> (forall a, keeps I (k a)) -> keeps I (bind m k).
Proof.
  intros Hm Hk w H. specialize (Hm w H). unfold bind.
  destruct (m w) as [[e|a] w1]; simpl in *; [assumption|now apply Hk].
Qed.

Lemma keeps_try_catch {A} I (m : M A) (h : JsError -> M A) :
  keeps I m -> (forall e, keeps I (h e)) -> keeps I (try_catch m h).
Proof.
  intros Hm Hh w H. specialize (Hm w H). unfold try_catch.
  destruct (m w) as [[e|a] w1]; simpl in *; [now apply Hh|assumption].
Qed.

Lemma keeps_mapM {A B} I (f : A -> M B) l :
  (forall x, In x l -> keeps I (f x)) -> keeps I (mapM f l).
Proof.
  induction l as [|x r IH]; intros Hf; simpl.
  - apply keeps_ret.
  - apply keeps_bind; [apply Hf; now left|]. intros y.
    apply keeps_bind; [apply IH; intros z Hz; apply Hf; now right|].
    intros ys. apply keeps_ret.
Qed.

Lemma keeps_forEach {A} I (f : A -> M unit) l :
  (forall x, In x l -> keeps I (f x)) -> keeps I (forEach f l).
Proof.
  induction l as [|x r IH]; intros Hf; simpl.
  - apply keeps_ret.
  - apply keeps_bind; [apply Hf; now left|]. intros _.
    apply IH. intros z Hz. apply Hf. now right.
Qed.

(** A storage call keeps what both the logging and the operation keep. *)
Lemma keeps_storage {A} env I ev (op : World -> A * World) :
  (forall w, I w -> I (called ev w)) ->
  (forall w, I w -> I (snd (op w))) ->
  keeps I (storage env ev op).
Proof.
  intros Hc Ho w H. unfold storage.
  destruct (storage_fails env (clock w)); simpl; [now apply Hc|].
  specialize (Ho (called ev w) (Hc w H)).
  now destruct (op (called ev w)).
Qed.

Lemma keeps_sendToToken env I tk payload :
  (forall ev w, is_send ev = true -> I w -> I (called ev w)) ->
  keeps I (sendToToken env tk payload).
Proof.
  intros Hc w H. unfold sendToToken.
  destruct (truthy tk); simpl; [|assumption].
  assert (I (called (EvSend tk (fcm_message payload)) w)) by now apply Hc.
  destruct (gateway env (clock w) tk) as [m|m|st b]; simpl; try assumption.
  now destruct (res_ok st).
Qed.

Lemma keeps_send_one env I payload tk :
  (forall ev w, is_send ev = true -> I w -> I (called ev w)) ->
  keeps I (send_one env payload tk).
Proof.
  intros Hc. unfold send_one. apply keeps_try_catch.
  - apply keeps_bind; [now apply keeps_sendToToken|]. intros r. apply keeps_ret.
  - intros e. apply keeps_ret.
Qed.

(** The service reads the registry and sends; it changes no record. *)
Lemma keeps_service env I userId payload :
  (forall ev w, is_send ev = true \/ is_lookup ev = true -> I w -> I (called ev w)) ->
  keeps I (sendNotificationToUserFromDb env userId payload).
Proof.
  intros Hc. unfold sendNotificationToUserFromDb.
  destruct (truthy userId); simpl; [|apply keeps_throw].
  apply keeps_bind.
  - apply keeps_storage; [|now intros w H].
    intros w H. apply Hc; [now right|assumption].
  - intros [user|]; [|apply keeps_throw].
    destruct (length (gather_tokens user) =? 0)%nat; [apply keeps_throw|].
    apply keeps_mapM. intros tk _. apply keeps_send_one.
    intros ev w Hs. apply Hc. now left.
Qed.

Lemma keeps_notify_user env I task u :
  (forall ev w, is_send ev = true \/ is_lookup ev = true -> I w -> I (called ev w)) ->
  keeps I (notify_user env task u).
Proof.
  intros Hc. unfold notify_user. apply keeps_try_catch.
  - apply keeps_bind; [now apply keeps_service|]. intros r. apply keeps_ret.
  - intros e. apply keeps_ret.
Qed.

Lemma total_notify_user env task u : total (notify_user env task u).
Proof.
  unfold notify_user. apply total_try_catch. intros e. apply total_ret.
Qed.

Lemma total_cleanup env l : total (cleanup env l).
Proof.
  unfold cleanup. destruct (0 <? length l)%nat; [|apply total_ret].
  apply total_forEach. intros f. apply total_try_catch.
  intros e. apply total_ret.
Qed.

(* ===================================================================== *)
(** ** The dispatcher: no assignee, lookup failure *)
(* ===================================================================== *)

(** C5.  When the assignee argument is not an array or is the empty array,
    the dispatcher returns its empty report at once and leaves the world as
    it was: the clock has not moved and nothing was logged, so no send was
    made and the registry was not read. *)
Theorem dispatch_without_assignees env task w :
  sendTaskAssignedNotifications env task None w = (inr Skipped, w)
  /\ sendTaskAssignedNotifications env task (Some []) w = (inr Skipped, w).
Proof. split; reflexivity. Qed.

Lemma total_after_lookup env task l :
  total (sendSummary <- mapM (notify_user env task) l ;;
         cleanup env (flat_map failed_of sendSummary) ;;
         ret (Report sendSummary (flat_map failed_of sendSummary))).
Proof.
  apply total_bind.
  - apply total_mapM. intros u. apply total_notify_user.
  - intros s. apply total_bind; [apply total_cleanup|].
    intros _. apply total_ret.
Qed.

(** C3, as the code has it.  When the batched lookup [User.find] of the
    assignees fails, the dispatcher throws the storage error itself to its
    caller and has done nothing but that one call: no send, no removal.
    When that lookup succeeds the dispatcher returns a report whatever the
    gateway answers and whatever fails later: a failed send is never thrown
    to the caller, and neither is a failure of the lookup [findById] that
    reads one user's tokens, which is caught and becomes that user's entry
    of the report after that one call. *)
Theorem lookup_failure_stops_dispatch env task id ids w :
  (storage_fails env (clock w) = true ->
     sendTaskAssignedNotifications env task (Some (id :: ids)) w
     = (inl (Error "storage error"), called (EvFind (id :: ids)) w)
     /\ count is_send (trace (called (EvFind (id :: ids)) w))
        = count is_send (trace w)
     /\ count is_removal (trace (called (EvFind (id :: ids)) w))
        = count is_removal (trace w))
  /\ (storage_fails env (clock w) = false ->
      exists summary failed,
        fst (sendTaskAssignedNotifications env task (Some (id :: ids)) w)
        = inr (Report summary failed))
  /\ (forall u v,
        truthy (_id u) = true ->
        storage_fails env (clock v) = true ->
        notify_user env task u v
        = (inr (Threw (_id u) "storage error"),
           called (EvFindById (_id u)) v)).
Proof.
  split; [|split].
  - intros Hf. split; [|split].
    + unfold sendTaskAssignedNotifications, bind, User_find, query, storage.
      now rewrite Hf.
    + unfold count, called; simpl. rewrite filter_app; simpl.
      now rewrite app_nil_r.
    + unfold count, called; simpl. rewrite filter_app; simpl.
      now rewrite app_nil_r.
  - intros Hf. unfold sendTaskAssignedNotifications.
    assert (Hfind : User_find env (id :: ids) w
                    = (inr (find_in (id :: ids) (users w)),
                       called (EvFind (id :: ids)) w)).
    { unfold User_find, query, storage. now rewrite Hf. }
    rewrite (bind_run _ _ _ _ _ Hfind).
    destruct (total_after_lookup env task (find_in (id :: ids) (users w))
                (called (EvFind (id :: ids)) w)) as [r Hr].
    revert Hr. unfold bind.
    destruct (mapM (notify_user env task) _ _) as [[e|s] w1]; simpl;
      [discriminate|].
    destruct (cleanup env _ w1) as [[e|[]] w2]; simpl; [discriminate|].
    intros _. now exists s, (flat_map failed_of s).
  - intros u v Hid Hf.
    unfold notify_user, try_catch, bind, sendNotificationToUserFromDb.
    rewrite Hid. cbn [negb].
    unfold bind, User_findById, query, storage. now rewrite Hf.
Qed.

(** The lookup fails: the error reaches the caller and the log has the
    lookup alone. *)
Lemma lookup_failure_stops_dispatch_witness :
  sendTaskAssignedNotifications
    (Sample.env_with (Sample.only 0) (HttpReply 200 "{ok}"))
    Sample.task (Some ["u1"; "u2"]) Sample.start
  = (inl (Error "storage error"), called (EvFind ["u1"; "u2"]) Sample.start).
Proof.
  apply (proj1 (lookup_failure_stops_dispatch
                  (Sample.env_with (Sample.only 0) (HttpReply 200 "{ok}"))
                  Sample.task "u1" ["u2"] Sample.start)).
  reflexivity.
Defined.

(** C3 as stated fails: the lookup that reads Bob's tokens is rejected by
    the storage after the send for Ann has been made; the dispatcher raises
    nothing and returns a report in which Bob's entry is the error. *)
Lemma token_lookup_failure_not_raised :
  fst (sendTaskAssignedNotifications
         (Sample.env_with (Sample.only 3) (HttpReply 200 "{ok}"))
         Sample.task (Some ["u1"; "u2"]) Sample.start)
  = inr (Report [Sent "u1" true
                      [mkSendResult "tokA" true (Some "{ok}") "" None] [];
                 Threw "u2" "storage error"] [])
  /\ filter is_send
            (trace (snd (sendTaskAssignedNotifications
                           (Sample.env_with (Sample.only 3) (HttpReply 200 "{ok}"))
                           Sample.task (Some ["u1"; "u2"]) Sample.start)))
     = [EvSend "tokA" (task_payload Sample.task)].
Proof. split; reflexivity. Qed.

(* ===================================================================== *)
(** ** The registry: removing a token *)
(* ===================================================================== *)

Lemma existsb_without tk tk' (l : list TokenEntry) :
  existsb (fun e => token e =? tk')
          (filter (fun e => negb (token e =? tk)) l)
  = existsb (fun e => token e =? tk') l && negb (tk' =? tk).
Proof.
  induction l as [|e r IH]; simpl; [reflexivity|].
  destruct (token e =? tk) eqn:E; simpl.
  - apply String.eqb_eq in E. rewrite IH.
    destruct (token e =? tk') eqn:E'; simpl; [|reflexivity].
    apply String.eqb_eq in E'. rewrite <- E', E, String.eqb_refl; simpl.
    now rewrite andb_false_r.
  - rewrite IH. destruct (token e =? tk') eqn:E'; simpl; [|reflexivity].
    apply String.eqb_eq in E'. rewrite <- E', E. reflexivity.
Qed.

Lemma holds_token_pull_entry tk tk' u :
  holds_token tk' (pull_entry tk u) = holds_token tk' u && negb (tk' =? tk).
Proof. unfold holds_token, pull_entry; simpl. apply existsb_without. Qed.

(** What one user record becomes when [tk] is removed from the registry. *)
Definition without (tk : string) (u : User) : User :=
  let u1 := if holds_token tk u then pull_entry tk u else u in
  if has_legacy tk u1 then set_fcmToken u1 None else u1.

Lemma removed_is_map tk db :
  unset_legacy tk (pull_token tk db) = map (without tk) db.
Proof. unfold unset_legacy, pull_token. now rewrite map_map. Qed.

Lemma without_id tk u : _id (without tk u) = _id u.
Proof.
  unfold without. destruct (holds_token tk u); simpl;
    match goal with |- context [if ?b then _ else _] => destruct b end;
    reflexivity.
Qed.

Lemma without_holds_token tk tk' u :
  holds_token tk' (without tk u) = holds_token tk' u && negb (tk' =? tk).
Proof.
  unfold without. destruct (holds_token tk u) eqn:H.
  - destruct (has_legacy tk (pull_entry tk u)); simpl;
      apply (holds_token_pull_entry tk tk' u).
  - assert (G : holds_token tk' u = holds_token tk' u && negb (tk' =? tk)).
    { destruct (tk' =? tk) eqn:E; simpl.
      - apply String.eqb_eq in E. subst. now rewrite H.
      - now rewrite andb_true_r. }
    now destruct (has_legacy tk u).
Qed.

Lemma without_has_legacy tk tk' u :
  has_legacy tk' (without tk u) = has_legacy tk' u && negb (tk' =? tk).
Proof.
  assert (P : forall v, fcmToken v = fcmToken u ->
            has_legacy tk' (if has_legacy tk v then set_fcmToken v None else v)
            = has_legacy tk' u && negb (tk' =? tk)).
  { intros v Hv. unfold has_legacy at 2 3. rewrite Hv.
    destruct (fcmToken u) as [t|] eqn:F.
    - destruct (t =? tk) eqn:E; simpl.
      + apply String.eqb_eq in E. subst t.
        destruct (tk =? tk') eqn:E'; simpl; [|reflexivity].
        apply String.eqb_eq in E'. subst. now rewrite String.eqb_refl.
      + unfold has_legacy. rewrite Hv.
        destruct (t =? tk') eqn:E'; simpl; [|reflexivity].
        apply String.eqb_eq in E'. subst t. now rewrite E.
    - unfold has_legacy. now rewrite Hv. }
  unfold without. destruct (holds_token tk u); apply P; reflexivity.
Qed.

Lemma without_holds tk u : holds tk (without tk u) = false.
Proof.
  unfold holds. rewrite without_holds_token, without_has_legacy.
  rewrite String.eqb_refl; simpl. now rewrite !andb_false_r.
Qed.

Lemma without_absent tk u : holds tk u = false -> without tk u = u.
Proof.
  unfold holds, without. intros H. apply orb_false_elim in H as [H1 H2].
  now rewrite H1, H2.
Qed.

Lemma removeToken_run env tk w :
  storage_fails env (clock w) = false ->
  storage_fails env (S (clock w)) = false ->
  removeToken env tk w
  = (inr tt,
     mkWorld (map (without tk) (users w)) (tasks w) (S (S (clock w)))
             (trace w ++ [EvPull tk; EvUnset tk])).
Proof.
  intros H1 H2. unfold removeToken, bind, update, storage; simpl.
  rewrite H1; simpl. rewrite H2; simpl.
  unfold set_users, called; simpl.
  rewrite removed_is_map, <- app_assoc. reflexivity.
Qed.

(** C6.  Removing a token value, when the two updates go through, returns
    without error and leaves no user record holding the value, neither in
    its token collection nor in the legacy field, however many records held
    it.  Every record is still there under its identity and holds every
    other token value exactly as before.  When no record held the value the
    registry is unchanged. *)
Theorem removeToken_every_holder env tk w :
  storage_fails env (clock w) = false ->
  storage_fails env (S (clock w)) = false ->
  fst (removeToken env tk w) = inr tt
  /\ (forall u, In u (users (snd (removeToken env tk w))) ->
        holds_token tk u = false /\ has_legacy tk u = false)
  /\ Forall2 (fun u u' =>
               _id u' = _id u
               /\ forall tk', tk' <> tk ->
                    holds_token tk' u' = holds_token tk' u
                    /\ has_legacy tk' u' = has_legacy tk' u)
             (users w) (users (snd (removeToken env tk w)))
  /\ ((forall u, In u (users w) -> holds tk u = false) ->
      users (snd (removeToken env tk w)) = users w).
Proof.
  intros H1 H2. rewrite (removeToken_run env tk w H1 H2); simpl.
  split; [reflexivity|]. split; [|split].
  - intros u Hu. apply in_map_iff in Hu as [v [<- _]].
    apply orb_false_elim. apply without_holds.
  - induction (users w) as [|u r IH]; simpl; constructor; [|exact IH].
    split; [apply without_id|]. intros tk' Hne.
    rewrite without_holds_token, without_has_legacy.
    apply String.eqb_neq in Hne. rewrite Hne; simpl.
    now rewrite !andb_true_r.
  - intros Habs. induction (users w) as [|u r IH]; simpl; [reflexivity|].
    rewrite without_absent by (apply Habs; now left).
    f_equal. apply IH. intros v Hv. apply Habs. now right.
Qed.

(** The token that two sample users share is gone from both. *)
Lemma removeToken_every_holder_witness :
  forallb (fun u => negb (holds "tokA" u))
          (users (snd (removeToken (Sample.env_with Sample.never
                                      (HttpReply 200 "{ok}"))
                                   "tokA" Sample.start))) = true
  /\ fst (removeToken (Sample.env_with Sample.never (HttpReply 200 "{ok}"))
                      "tokA" Sample.start) = inr tt.
Proof.
  split; [reflexivity|].
  apply (removeToken_every_holder
           (Sample.env_with Sample.never (HttpReply 200 "{ok}"))
           "tokA" Sample.start); reflexivity.
Defined.

(* ===================================================================== *)
(** ** The registry: adding a token *)
(* ===================================================================== *)

Lemma update_one_none p f db :
  (forall u, In u db -> p u = false) -> update_one p f db = db.
Proof.
  induction db as [|u r IH]; intros H; simpl; [reflexivity|].
  rewrite (H u) by now left.
  f_equal. apply IH. intros v Hv. apply H. now right.
Qed.

Lemma no_other_id uid u r :
  NoDup (map _id (u :: r)) -> has_id uid u = true ->
  forall v, In v r -> has_id uid v = false.
Proof.
  intros Hnd Hu v Hv. inversion Hnd as [|x l Hnot _]; subst.
  unfold has_id in *. apply String.eqb_eq in Hu.
  destruct (_id v =? uid) eqn:E; [|reflexivity].
  apply String.eqb_eq in E. exfalso. apply Hnot.
  rewrite Hu, <- E. now apply in_map.
Qed.

Lemma holds_token_pushed tk e u :
  token e = tk -> holds_token tk (set_fcmTokens u (fcmTokens u ++ [e])) = true.
Proof.
  intros He. unfold holds_token; simpl. rewrite existsb_app; simpl.
  rewrite He, String.eqb_refl. now rewrite orb_true_r.
Qed.

(** The registry after one successful registration of [tk] for [uid]. *)
Definition added (uid tk pf : string) (t : nat) (db : list User) : list User :=
  set_legacy uid tk (push_token uid (mkTokenEntry tk pf t) db).

Lemma push_token_here uid e u r :
  has_id uid u = true ->
  (forall v, In v r -> has_id uid v = false) ->
  push_token uid e (u :: r)
  = (if holds_token (token e) u then u
     else set_fcmTokens u (fcmTokens u ++ [e])) :: r.
Proof.
  intros Hu Hr. unfold push_token; simpl. rewrite Hu; simpl.
  destruct (holds_token (token e) u); simpl; [|reflexivity].
  f_equal. apply update_one_none. intros v Hv. now rewrite (Hr v Hv).
Qed.

Lemma push_token_later uid e u r :
  has_id uid u = false -> push_token uid e (u :: r) = u :: push_token uid e r.
Proof. intros Hu. unfold push_token; simpl. now rewrite Hu. Qed.

Lemma set_legacy_here uid tk u r :
  has_id uid u = true -> set_legacy uid tk (u :: r) = set_fcmToken u (Some tk) :: r.
Proof. intros Hu. unfold set_legacy; simpl. now rewrite Hu. Qed.

Lemma set_legacy_later uid tk u r :
  has_id uid u = false -> set_legacy uid tk (u :: r) = u :: set_legacy uid tk r.
Proof. intros Hu. unfold set_legacy; simpl. now rewrite Hu. Qed.

(** Registering again, with any platform and at any time, changes nothing. *)
Lemma added_twice uid tk pf pf' t t' db :
  NoDup (map _id db) ->
  added uid tk pf' t' (added uid tk pf t db) = added uid tk pf t db.
Proof.
  unfold added.
  induction db as [|u r IH]; intros Hnd; [reflexivity|].
  destruct (has_id uid u) eqn:Hu.
  - assert (Hr : forall v, In v r -> has_id uid v = false)
      by (eapply no_other_id; eassumption).
    rewrite (push_token_here uid _ u r Hu Hr).
    set (u1 := if holds_token (token (mkTokenEntry tk pf t)) u then u
               else set_fcmTokens u (fcmTokens u ++ [mkTokenEntry tk pf t])).
    assert (H1 : has_id uid u1 = true).
    { unfold u1. now destruct (holds_token _ u). }
    assert (H1h : holds_token tk u1 = true).
    { unfold u1. simpl. destruct (holds_token tk u) eqn:Hh; [exact Hh|].
      now apply holds_token_pushed. }
    rewrite (set_legacy_here uid tk u1 r H1).
    assert (H2 : has_id uid (set_fcmToken u1 (Some tk)) = true) by exact H1.
    rewrite (push_token_here uid _ _ r H2 Hr).
    assert (H2h : holds_token (token (mkTokenEntry tk pf' t'))
                              (set_fcmToken u1 (Some tk)) = true) by exact H1h.
    rewrite H2h. now rewrite (set_legacy_here uid tk _ r H2).
  - rewrite (push_token_later uid _ u r Hu), (set_legacy_later uid tk u _ Hu).
    rewrite (push_token_later uid _ u _ Hu), (set_legacy_later uid tk u _ Hu).
    f_equal. apply IH. now inversion Hnd.
Qed.

(** Registering a value the user already holds leaves every token
    collection as it was. *)
Lemma added_present uid tk pf t db :
  NoDup (map _id db) ->
  (forall u, In u db -> has_id uid u = true -> holds_token tk u = true) ->
  map fcmTokens (added uid tk pf t db) = map fcmTokens db.
Proof.
  intros Hnd Hp. unfold added, push_token.
  rewrite update_one_none.
  - unfold set_legacy. clear. induction db as [|u r IH]; simpl; [reflexivity|].
    destruct (has_id uid u); simpl; [reflexivity|now rewrite IH].
  - intros u Hu. destruct (has_id uid u) eqn:E; simpl; [|reflexivity].
    now rewrite (Hp u Hu E).
Qed.

Lemma post_device_token_run env uid tk pf w :
  truthy tk = true ->
  storage_fails env (clock w) = false ->
  storage_fails env (S (clock w)) = false ->
  post_device_token env uid tk pf w
  = (mkResponse 200 (MsgBody "Token saved"),
     mkWorld (added uid tk (or_default pf "") (clock w) (users w)) (tasks w)
             (S (S (clock w)))
             (trace w ++ [EvPush uid tk; EvSetLegacy uid tk])).
Proof.
  intros Ht H1 H2.
  unfold post_device_token, respond, bind, now, update, storage; simpl.
  rewrite Ht; simpl. rewrite H1; simpl. rewrite H2; simpl.
  unfold set_users, called, added; simpl. now rewrite <- app_assoc.
Qed.

(** C8.  Registering a device token is idempotent.  With a reliable storage
    and user identities that are unique in the collection, registering the
    same token for the same user a second time (with whatever platform)
    leaves every user record as the first registration left it; and
    registering a token the user already holds leaves every token
    collection as it was, so no entry is duplicated. *)
Theorem addToken_idempotent env uid tk pf pf' w :
  NoDup (map _id (users w)) ->
  reliable env ->
  let w1 := snd (post_device_token env uid tk pf w) in
  let w2 := snd (post_device_token env uid tk pf' w1) in
  users w2 = users w1
  /\ ((forall u, In u (users w) -> has_id uid u = true ->
         holds_token tk u = true) ->
      map fcmTokens (users w1) = map fcmTokens (users w)).
Proof.
  intros Hnd Hrel. destruct (truthy tk) eqn:Ht.
  - rewrite (post_device_token_run env uid tk pf w Ht (Hrel _) (Hrel _)).
    simpl.
    rewrite (post_device_token_run env uid tk pf' _ Ht (Hrel _) (Hrel _)).
    simpl. split.
    + now apply added_twice.
    + intros Hp. now apply added_present.
  - unfold post_device_token, respond. rewrite Ht; simpl. now split.
Qed.

(** Bob registers "tokB", which he holds, and then registers it again. *)
Lemma addToken_idempotent_witness :
  users (snd (post_device_token
                (Sample.env_with Sample.never (HttpReply 200 "{ok}"))
                "u2" "tokB" "android"
                (snd (post_device_token
                        (Sample.env_with Sample.never (HttpReply 200 "{ok}"))
                        "u2" "tokB" "ios" Sample.start))))
  = users (snd (post_device_token
                  (Sample.env_with Sample.never (HttpReply 200 "{ok}"))
                  "u2" "tokB" "ios" Sample.start)).
Proof.
  apply (addToken_idempotent
           (Sample.env_with Sample.never (HttpReply 200 "{ok}"))
           "u2" "tokB" "ios" "android" Sample.start).
  - repeat constructor; simpl; intuition discriminate.
  - intros n. reflexivity.
Defined.

(* ===================================================================== *)
(** ** What the dispatcher keeps *)
(* ===================================================================== *)

Lemma keeps_removeToken env I tk :
  (forall ev w, is_removal ev = true -> I w -> I (called ev w)) ->
  (forall w, I w -> I (set_users w (pull_token tk (users w)))) ->
  (forall w, I w -> I (set_users w (unset_legacy tk (users w)))) ->
  keeps I (removeToken env tk).
Proof.
  intros Hc Hp Hu. unfold removeToken. apply keeps_bind.
  - apply keeps_storage; [intros w; now apply Hc|exact Hp].
  - intros _. apply keeps_storage; [intros w; now apply Hc|exact Hu].
Qed.

Lemma keeps_cleanup env I l :
  (forall ev w, is_removal ev = true -> I w -> I (called ev w)) ->
  (forall f w, In f l -> I w ->
     I (set_users w (pull_token (f_token f) (users w)))) ->
  (forall f w, In f l -> I w ->
     I (set_users w (unset_legacy (f_token f) (users w)))) ->
  keeps I (cleanup env l).
Proof.
  intros Hc Hp Hu. unfold cleanup.
  destruct (0 <? length l)%nat; [|apply keeps_ret].
  apply keeps_forEach. intros f Hf. apply keeps_try_catch.
  - apply keeps_removeToken; [exact Hc| |]; intros w; [apply Hp|apply Hu];
      exact Hf.
  - intros e. apply keeps_ret.
Qed.

(** What no call and no change of the user collection disturbs survives a
    whole dispatch. *)
Lemma keeps_dispatch env I task ids :
  (forall ev w, I w -> I (called ev w)) ->
  (forall w l, I w -> I (set_users w l)) ->
  keeps I (sendTaskAssignedNotifications env task ids).
Proof.
  intros Hc Hs. unfold sendTaskAssignedNotifications.
  destruct ids as [[|id ids]|]; try apply keeps_ret.
  apply keeps_bind.
  - apply keeps_storage; [intros w; apply Hc|now intros w H].
  - intros found. apply keeps_bind.
    + apply keeps_mapM. intros u _. apply keeps_notify_user.
      intros ev w _. apply Hc.
    + intros s. apply keeps_bind; [|intros _; apply keeps_ret].
      apply keeps_cleanup; intros; first [now apply Hc | now apply Hs].
Qed.

(* ===================================================================== *)
(** ** POST /api/tasks *)
(* ===================================================================== *)

Lemma not_blank_truthy s : blank s = false -> truthy s = true.
Proof. now destruct s. Qed.

(** The reads that [populate] makes after the save: one for a non-empty
    [assignedTo], one for a [createdBy] that is set. *)
Definition reads (ids : list string) : nat :=
  match ids with
  | [] => 0
  | _ :: _ => 1
  end.

Definition populate_reads (arr : list string) (user_id : string) : nat :=
  reads arr + reads (creator user_id).

Definition after_populate (path : string) (ids : list string) (w : World)
  : World :=
  match ids with
  | [] => w
  | _ :: _ => called (EvPopulate path) w
  end.

(** The world in which the dispatch starts: the task is saved and the reads
    have been made. *)
Definition saved (t : Task) (w : World) : World :=
  after_populate "createdBy" (creator (createdBy t))
    (after_populate "assignedTo" (assignedTo t)
       (set_tasks (called (EvSaveTask (task_id t)) w) (tasks w ++ [t]))).

Lemma populate_run env path ids w :
  storage_fails env (clock w) = false \/ ids = [] ->
  populate env path ids w = (inr tt, after_populate path ids w).
Proof.
  intros H. destruct ids as [|i r]; [reflexivity|].
  destruct H as [H|H]; [|discriminate]. cbn [populate after_populate].
  unfold storage. now rewrite H.
Qed.

Lemma post_tasks_run env uid ttl desc a w :
  blank ttl = false ->
  (forall k, k <= populate_reads (assignedArr a) uid ->
     storage_fails env (clock w + k) = false) ->
  let newTask := mkTask (fresh_id env (clock w)) ttl (or_default desc "")
                        (assignedArr a) uid in
  post_tasks env uid ttl desc a w
  = (mkResponse 201 (TaskCreated newTask),
     snd (sendTaskAssignedNotifications env newTask (Some (assignedArr a))
            (saved newTask w))).
Proof.
  intros Hb Hok newTask.
  assert (H0 : storage_fails env (clock w) = false)
    by (rewrite <- (Nat.add_0_r (clock w)); apply Hok; lia).
  set (w1 := set_tasks (called (EvSaveTask (fresh_id env (clock w))) w)
                       (tasks w ++ [newTask])).
  assert (Hsave : Task_save env newTask w = (inr tt, w1))
    by (unfold Task_save, storage; now rewrite H0).
  assert (Hp1 : populate env "assignedTo" (assignedArr a) w1
                = (inr tt, after_populate "assignedTo" (assignedArr a) w1)).
  { apply populate_run. destruct (assignedArr a) as [|i r] eqn:Ha;
      [now right|left].
    replace (clock w1) with (clock w + 1) by (unfold w1; cbn; lia).
    apply Hok. unfold populate_reads. cbn [reads]. lia. }
  set (w2 := after_populate "assignedTo" (assignedArr a) w1) in *.
  assert (Hp2 : populate env "createdBy" (creator uid) w2
                = (inr tt, after_populate "createdBy" (creator uid) w2)).
  { apply populate_run. destruct (creator uid) as [|i r] eqn:Hc;
      [now right|left].
    replace (clock w2)
      with (clock w + populate_reads (assignedArr a) uid).
    - apply Hok. lia.
    - unfold populate_reads, w2, w1. rewrite Hc.
      destruct (assignedArr a); cbn; lia. }
  unfold post_tasks, respond.
  rewrite (not_blank_truthy _ Hb), Hb. cbn [negb orb].
  unfold bind at 1. unfold now at 1. fold newTask.
  rewrite (bind_run _ _ _ _ _ Hsave).
  rewrite (bind_run _ _ _ _ _ Hp1).
  rewrite (bind_run _ _ _ _ _ Hp2).
  change (after_populate "createdBy" (creator uid) w2) with (saved newTask w).
  unfold bind, try_catch.
  now destruct (sendTaskAssignedNotifications env newTask
                  (Some (assignedArr a)) (saved newTask w)) as [[e|r] w4].
Qed.

(** C7, as the code has it.  When the task is saved and the reads that
    [populate] makes after the save succeed (one for a non-empty
    [assignedTo], one for [createdBy]), the endpoint answers 201 with the
    task, and the task is in the collection, whatever the notification
    dispatch does: whatever the gateway answers to any send, and whichever
    storage call of the dispatch or of its cleanup fails. *)
Theorem task_created_whatever_dispatch env uid ttl desc a w :
  blank ttl = false ->
  (forall k, k <= populate_reads (assignedArr a) uid ->
     storage_fails env (clock w + k) = false) ->
  let newTask := mkTask (fresh_id env (clock w)) ttl (or_default desc "")
                        (assignedArr a) uid in
  fst (post_tasks env uid ttl desc a w) = mkResponse 201 (TaskCreated newTask)
  /\ In newTask (tasks (snd (post_tasks env uid ttl desc a w))).
Proof.
  intros Hb Hok newTask.
  rewrite (post_tasks_run env uid ttl desc a w Hb Hok). fold newTask.
  split; [reflexivity|]. cbn [snd].
  apply (keeps_dispatch env (fun x => In newTask (tasks x))); try now intros.
  unfold saved, after_populate.
  destruct (creator (createdBy newTask)), (assignedTo newTask); cbn;
    apply in_or_app; right; now left.
Qed.

(** Every send of the dispatch fails on the network and every removal of
    the cleanup is rejected by the storage: the answer is still 201. *)
Definition flaky : Env :=
  mkEnv (fun n => (9 <=? n)%nat) (fun _ _ => FetchError "ECONNRESET")
        (fun n => "id" ++ string_of_nat n) (fun p => p) "secret".

Lemma task_created_whatever_dispatch_witness :
  fst (post_tasks flaky "u0" "Fix the build" "" (Assignees ["u1"; "u2"])
                  Sample.start)
  = mkResponse 201
      (TaskCreated (mkTask "id0" "Fix the build" "" ["u1"; "u2"] "u0"))
  /\ filter (fun ev => is_send ev || is_removal ev)
            (trace (snd (post_tasks flaky "u0" "Fix the build" ""
                                    (Assignees ["u1"; "u2"]) Sample.start)))
     = [EvSend "tokA" (task_payload
                         (mkTask "id0" "Fix the build" "" ["u1"; "u2"] "u0"));
        EvSend "tokA" (task_payload
                         (mkTask "id0" "Fix the build" "" ["u1"; "u2"] "u0"));
        EvSend "tokB" (task_payload
                         (mkTask "id0" "Fix the build" "" ["u1"; "u2"] "u0"));
        EvPull "tokA"; EvPull "tokA"; EvPull "tokB"].
Proof.
  split; [|reflexivity].
  apply (task_created_whatever_dispatch flaky "u0" "Fix the build" ""
           (Assignees ["u1"; "u2"]) Sample.start); [reflexivity|].
  intros k Hk. cbn in Hk. cbn.
  destruct k as [|[|[|k]]]; try reflexivity. lia.
Defined.

(** C7 as stated fails: the task is saved, the [populate] read after the
    save is rejected by the storage, and the endpoint answers 500 although
    the task is in the collection. *)
Lemma saved_task_yet_500 :
  fst (post_tasks (Sample.env_with (Sample.only 1) (HttpReply 200 "{ok}"))
                  "u0" "Fix the build" "" (Assignees ["u1"]) Sample.start)
  = mkResponse 500 (ErrorBody "Server error")
  /\ tasks (snd (post_tasks (Sample.env_with (Sample.only 1) (HttpReply 200 "{ok}"))
                            "u0" "Fix the build" "" (Assignees ["u1"])
                            Sample.start))
     = [mkTask "id0" "Fix the build" "" ["u1"] "u0"].
Proof. split; reflexivity. Qed.

(* ===================================================================== *)
(** ** POST /api/auth/register *)
(* ===================================================================== *)

Lemma in_enum r : In r role_enum -> existsb (String.eqb r) role_enum = true.
Proof.
  intros H. apply existsb_exists. exists r. split; [exact H|].
  apply String.eqb_refl.
Qed.

Lemma not_in_enum r : ~ In r role_enum -> existsb (String.eqb r) role_enum = false.
Proof.
  intros H. destruct (existsb (String.eqb r) role_enum) eqn:E; [|reflexivity].
  apply existsb_exists in E as [x [Hx Heq]]. apply String.eqb_eq in Heq.
  subst x. contradiction.
Qed.

(** C10, as the code has it.  The endpoint asks for no credential.  Take a
    request with an unused email whose lookup succeeds.  If its role is one
    that the schema accepts ('admin' or 'user'; an absent or empty role
    counts as 'user'), it has a name, an email and a password, the signing
    secret is configured and the save succeeds, then the endpoint creates
    the user with exactly that role and answers with a session credential
    whose payload carries that role: a caller who supplies 'admin' is given
    an admin credential.  If its role is any other string, then whatever
    the other fields are the save is refused: no user is created, no
    credential is issued and the answer is 500. *)
Theorem register_takes_the_role env nm mail pw r w :
  find_by_email mail (users w) = None ->
  storage_fails env (clock w) = false ->
  (truthy nm = true ->
   truthy mail = true ->
   truthy (jwt_secret env) = true ->
   storage_fails env (S (clock w)) = false ->
   In (opt_or_default r "user") role_enum ->
   post_register env nm mail (Some pw) r w
   = (mkResponse 200
        (Registered (mkJwt (fresh_id env (S (clock w)))
                           (opt_or_default r "user") (jwt_secret env))
                    (fresh_id env (S (clock w))) nm mail
                    (opt_or_default r "user")),
      mkWorld (users w
               ++ [mkUser (fresh_id env (S (clock w))) nm mail
                          ("$2a$10$" ++ digest env pw)
                          (opt_or_default r "user") [] None])
              (tasks w) (S (S (clock w)))
              (trace w ++ [EvFindOne mail;
                           EvSaveUser (fresh_id env (S (clock w)))])))
  /\ (~ In (opt_or_default r "user") role_enum ->
      forall pw',
        post_register env nm mail pw' r w
        = (mkResponse 500 (Text "Server error"), called (EvFindOne mail) w)).
Proof.
  intros Hnew H1. split.
  - intros Hn Hm Hs H2 Hr.
    unfold post_register, respond, bind, User_findOne, query, storage.
    rewrite H1. cbn [users called]. rewrite Hnew.
    unfold bcrypt_hash, ret, now, User_save, validate_user, jwt_sign.
    cbn [name email password role clock called _id].
    rewrite Hn, Hm, (in_enum _ Hr), Hs.
    change (truthy ("$2a$10$" ++ digest env pw)) with true. cbn [andb].
    unfold storage. cbn [clock called]. rewrite H2.
    unfold set_users, called. cbn [users tasks clock trace].
    now rewrite <- app_assoc.
  - intros Hr pw'.
    unfold post_register, respond, bind, User_findOne, query, storage.
    rewrite H1. cbn [users called]. rewrite Hnew.
    destruct pw' as [p|]; [|reflexivity].
    unfold bcrypt_hash, ret, now, User_save, validate_user.
    cbn [name email password role clock called _id].
    rewrite (not_in_enum _ Hr), !andb_false_r. reflexivity.
Qed.

(** An unauthenticated request with role 'admin' gets an admin credential. *)
Lemma register_takes_the_role_witness :
  fst (post_register (Sample.env_with Sample.never (HttpReply 200 "{ok}"))
                     "Eve" "eve@example.com" (Some "pw") (Some "admin")
                     Sample.start)
  = mkResponse 200
      (Registered (mkJwt "id1" "admin" "secret") "id1" "Eve"
                  "eve@example.com" "admin").
Proof.
  rewrite (proj1 (register_takes_the_role
                    (Sample.env_with Sample.never (HttpReply 200 "{ok}"))
                    "Eve" "eve@example.com" "pw" (Some "admin") Sample.start
                    eq_refl eq_refl));
    try reflexivity.
  simpl. now left.
Defined.

(** C10 as stated fails: a role string outside the schema's enumeration is
    rejected when the user is saved; the answer is 500 and no user is
    created. *)
Lemma register_rejects_manager :
  post_register (Sample.env_with Sample.never (HttpReply 200 "{ok}"))
                "Eve" "eve@example.com" (Some "pw") (Some "manager")
                Sample.start
  = (mkResponse 500 (Text "Server error"),
     called (EvFindOne "eve@example.com") Sample.start).
Proof. reflexivity. Qed.

(* ===================================================================== *)
(** ** A user without tokens *)
(* ===================================================================== *)

(** C4, as the code has it.  For a user whose record yields no token (no
    entry with a token, no legacy token) the service throws 'No FCM tokens
    found for user <id>' after its one lookup; the dispatcher catches it and
    the user's entry in the report is that error, with no results.  The
    lookup is the only call made: nothing is sent on the user's behalf. *)
Theorem user_without_tokens env task u u' w :
  truthy (_id u) = true ->
  storage_fails env (clock w) = false ->
  find_by_id (_id u) (users w) = Some u' ->
  gather_tokens u' = [] ->
  sendNotificationToUserFromDb env (_id u) (task_payload task) w
  = (inl (Error ("No FCM tokens found for user " ++ _id u)),
     called (EvFindById (_id u)) w)
  /\ notify_user env task u w
     = (inr (Threw (_id u) ("No FCM tokens found for user " ++ _id u)),
        called (EvFindById (_id u)) w).
Proof.
  intros Hid Hs Hfind Hnone.
  assert (Hsvc : sendNotificationToUserFromDb env (_id u) (task_payload task) w
                 = (inl (Error ("No FCM tokens found for user " ++ _id u)),
                    called (EvFindById (_id u)) w)).
  { unfold sendNotificationToUserFromDb. rewrite Hid. cbn [negb].
    unfold bind, User_findById, query, storage. rewrite Hs.
    cbn [users called]. rewrite Hfind, Hnone. reflexivity. }
  split; [exact Hsvc|].
  unfold notify_user, try_catch, bind. rewrite Hsvc. reflexivity.
Qed.

(** Cy has no token: his entry in the report is the error. *)
Lemma user_without_tokens_witness :
  notify_user (Sample.env_with Sample.never (HttpReply 200 "{ok}"))
              Sample.task Sample.U3 Sample.start
  = (inr (Threw "u3" "No FCM tokens found for user u3"),
     called (EvFindById "u3") Sample.start).
Proof.
  apply (user_without_tokens
           (Sample.env_with Sample.never (HttpReply 200 "{ok}"))
           Sample.task Sample.U3 Sample.U3 Sample.start); reflexivity.
Defined.

(** C4 as stated fails: resolving the tokens of a user who has none is an
    error, not an empty sequence, and the report of a dispatch to that user
    holds the error instead of an empty list of attempts. *)
Lemma no_tokens_is_an_error :
  fst (sendNotificationToUserFromDb
         (Sample.env_with Sample.never (HttpReply 200 "{ok}"))
         "u3" (task_payload Sample.task) Sample.start)
  = inl (Error "No FCM tokens found for user u3")
  /\ fst (sendTaskAssignedNotifications
            (Sample.env_with Sample.never (HttpReply 200 "{ok}"))
            Sample.task (Some ["u3"]) Sample.start)
     = inr (Report [Threw "u3" "No FCM tokens found for user u3"] []).
Proof. split; reflexivity. Qed.

(* ===================================================================== *)
(** ** Counting calls *)
(* ===================================================================== *)

Lemma count_called c ev w :
  count c (trace (called ev w)) = count c (trace w) + (if c ev then 1 else 0).
Proof.
  unfold count, called; simpl. rewrite filter_app, length_app; simpl.
  now destruct (c ev).
Qed.

(** The calls of kind [c] stay as many when [m] makes none of that kind. *)
Definition silent {A} (c : Event -> bool) (m : M A) : Prop :=
  forall n, keeps (fun w => count c (trace w) = n) m.

Lemma silent_count {A} c (m : M A) w :
  silent c m -> count c (trace (snd (m w))) = count c (trace w).
Proof. intros H. now apply (H (count c (trace w)) w). Qed.

(** A loop whose rounds never throw adds up what its rounds add. *)
Lemma mapM_adds {A B} c (I : World -> Prop) (f : A -> M B) (g : A -> nat) l :
  (forall x, total (f x)) ->
  (forall x, In x l -> keeps I (f x)) ->
  (forall x w, In x l -> I w ->
     count c (trace (snd (f x w))) = count c (trace w) + g x) ->
  forall w, I w ->
    count c (trace (snd (mapM f l w))) = count c (trace w) + list_sum (map g l).
Proof.
  intros Ht. induction l as [|x r IH]; intros Hk Hf w Hw; simpl.
  - now rewrite Nat.add_0_r.
  - assert (Hx := Hf x w (or_introl eq_refl) Hw).
    assert (Hw1 := Hk x (or_introl eq_refl) w Hw).
    destruct (Ht x w) as [y Hy].
    unfold bind at 1. destruct (f x w) as [[e|y'] w1]; simpl in *;
      [discriminate|].
    assert (Hr := IH (fun z Hz => Hk z (or_intror Hz))
                     (fun z v Hz => Hf z v (or_intror Hz)) w1 Hw1).
    destruct (total_mapM f r Ht w1) as [ys Hys].
    unfold bind. destruct (mapM f r w1) as [[e|ys'] w2]; simpl in *;
      [discriminate|].
    rewrite Hr, Hx. lia.
Qed.

Lemma silent_send_one env c payload tk :
  (forall ev, is_send ev = true -> c ev = false) ->
  silent c (send_one env payload tk).
Proof.
  intros Hc n. apply keeps_send_one. intros ev w Hs Hw.
  rewrite count_called, (Hc ev Hs). lia.
Qed.

Lemma silent_cleanup env c l :
  (forall ev, is_removal ev = true -> c ev = false) ->
  silent c (cleanup env l).
Proof.
  intros Hc n. apply keeps_cleanup; try (now intros).
  intros ev w Hr Hw. rewrite count_called, (Hc ev Hr). lia.
Qed.


(* ===================================================================== *)
(** ** Storage round-trips of a dispatch *)
(* ===================================================================== *)

Lemma sum_of_flags {A} (p : A -> bool) l :
  list_sum (map (fun x => if p x then 1 else 0) l) = length (filter p l).
Proof.
  induction l as [|x r IH]; simpl; [reflexivity|].
  rewrite IH. now destruct (p x).
Qed.

Lemma send_is_no_lookup ev : is_send ev = true -> is_lookup ev = false.
Proof. now destruct ev. Qed.

Lemma removal_is_no_lookup ev : is_removal ev = true -> is_lookup ev = false.
Proof. now destruct ev. Qed.

(** The service makes one lookup, unless it stops at its guard. *)
Lemma service_lookups env userId payload w :
  count is_lookup
        (trace (snd (sendNotificationToUserFromDb env userId payload w)))
  = count is_lookup (trace w) + (if truthy userId then 1 else 0).
Proof.
  unfold sendNotificationToUserFromDb.
  destruct (truthy userId); cbn [negb]; [|simpl; lia].
  unfold bind, User_findById, query, storage.
  destruct (storage_fails env (clock w)); cbn [snd].
  - now rewrite count_called.
  - destruct (find_by_id userId (users (called (EvFindById userId) w)))
      as [user|]; [|cbn [throw snd]; now rewrite count_called].
    destruct (length (gather_tokens user) =? 0)%nat;
      [cbn [throw snd]; now rewrite count_called|].
    rewrite silent_count; [now rewrite count_called|].
    intros n. apply keeps_mapM. intros tk _.
    apply silent_send_one. exact send_is_no_lookup.
Qed.

Lemma notify_user_lookups env task u w :
  count is_lookup (trace (snd (notify_user env task u w)))
  = count is_lookup (trace w) + (if truthy (_id u) then 1 else 0).
Proof.
  rewrite <- (service_lookups env (_id u) (task_payload task) w).
  unfold notify_user, try_catch, bind.
  now destruct (sendNotificationToUserFromDb env (_id u) (task_payload task) w)
    as [[e|r] w1].
Qed.

(** C9, as the code has it.  A dispatch over a non-empty assignee sequence
    whose batched lookup succeeds makes that one [User.find] and then one
    [User.findById] for every user it found: the number of lookups is one
    more than the number of resolved users, so it grows with the
    assignees. *)
Theorem lookups_one_per_resolved_user env task id ids w :
  storage_fails env (clock w) = false ->
  count is_lookup
        (trace (snd (sendTaskAssignedNotifications env task
                       (Some (id :: ids)) w)))
  = count is_lookup (trace w) + 1
    + length (filter (fun u => truthy (_id u))
                     (find_in (id :: ids) (users w))).
Proof.
  intros Hs. unfold sendTaskAssignedNotifications.
  assert (Hfind : User_find env (id :: ids) w
                  = (inr (find_in (id :: ids) (users w)),
                     called (EvFind (id :: ids)) w)).
  { unfold User_find, query, storage. now rewrite Hs. }
  rewrite (bind_run _ _ _ _ _ Hfind).
  set (found := find_in (id :: ids) (users w)).
  set (w0 := called (EvFind (id :: ids)) w).
  assert (Hloop := mapM_adds is_lookup (fun _ => True)
                     (notify_user env task)
                     (fun u => if truthy (_id u) then 1 else 0) found
                     (total_notify_user env task)
                     (fun x _ v _ => I)
                     (fun x v _ _ => notify_user_lookups env task x v) w0 I).
  rewrite sum_of_flags in Hloop.
  replace (count is_lookup (trace w0)) with (count is_lookup (trace w) + 1)
    in Hloop by (unfold w0; now rewrite count_called).
  destruct (total_mapM (notify_user env task) found
              (total_notify_user env task) w0) as [s Hsum].
  unfold bind at 1.
  destruct (mapM (notify_user env task) found w0) as [[e|s'] w1];
    simpl in Hsum, Hloop; [discriminate|].
  assert (Hc := silent_count is_lookup
                  (cleanup env (flat_map failed_of s')) w1
                  (silent_cleanup env is_lookup _ removal_is_no_lookup)).
  unfold bind.
  destruct (cleanup env (flat_map failed_of s') w1) as [[e|[]] w2];
    unfold ret; cbn [fst snd] in *; rewrite Hc, Hloop; reflexivity.
Qed.

(** One assignee: one batched lookup and one lookup by identity. *)
Lemma lookups_one_per_resolved_user_witness :
  count is_lookup
        (trace (snd (sendTaskAssignedNotifications
                       (Sample.env_with Sample.never (HttpReply 200 "{ok}"))
                       Sample.task (Some ["u1"]) Sample.start)))
  = 2.
Proof.
  rewrite (lookups_one_per_resolved_user
             (Sample.env_with Sample.never (HttpReply 200 "{ok}"))
             Sample.task "u1" [] Sample.start); reflexivity.
Defined.

(** C9 as stated fails: the number of lookups is not the same for one
    assignee and for two. *)
Lemma lookups_not_constant :
  count is_lookup
        (trace (snd (sendTaskAssignedNotifications
                       (Sample.env_with Sample.never (HttpReply 200 "{ok}"))
                       Sample.task (Some ["u1"]) Sample.start))) = 2
  /\ count is_lookup
           (trace (snd (sendTaskAssignedNotifications
                          (Sample.env_with Sample.never (HttpReply 200 "{ok}"))
                          Sample.task (Some ["u1"; "u2"]) Sample.start))) = 3.
Proof. split; reflexivity. Qed.

(* ===================================================================== *)
(** ** Sends of a dispatch *)
(* ===================================================================== *)


Lemma uniq_from_incl seen l t : In t (uniq_from seen l) -> In t l.
Proof.
  revert seen. induction l as [|x r IH]; intros seen; simpl; [easy|].
  destruct (existsb (String.eqb x) seen).
  - intros H. right. eapply IH, H.
  - intros [H|H]; [now left|right; eapply IH, H].
Qed.



Lemma gather_tokens_truthy u t : In t (gather_tokens u) -> truthy t = true.
Proof.
  unfold gather_tokens. intros H. apply in_app_or in H as [H|H].
  - now apply filter_In in H.
  - destruct (fcmToken u) as [x|]; [|easy].
    destruct (truthy x) eqn:E; [|easy].
    destruct H as [<-|[]]. exact E.
Qed.









(* ===================================================================== *)
(** ** Cleanup after a dispatch *)
(* ===================================================================== *)

(** What each of the two updates does to one record. *)
Definition pull_step (tk : string) (u : User) : User :=
  if holds_token tk u then pull_entry tk u else u.

Definition unset_step (tk : string) (u : User) : User :=
  if has_legacy tk u then set_fcmToken u None else u.

Lemma pull_step_holds_token tk tk' u :
  holds_token tk' (pull_step tk u) = holds_token tk' u && negb (tk' =? tk).
Proof.
  unfold pull_step. destruct (holds_token tk u) eqn:H.
  - apply holds_token_pull_entry.
  - destruct (tk' =? tk) eqn:E; simpl.
    + apply String.eqb_eq in E. subst. now rewrite H.
    + now rewrite andb_true_r.
Qed.

Lemma pull_step_has_legacy tk tk' u :
  has_legacy tk' (pull_step tk u) = has_legacy tk' u.
Proof. unfold pull_step. now destruct (holds_token tk u). Qed.

Lemma unset_step_holds_token tk tk' u :
  holds_token tk' (unset_step tk u) = holds_token tk' u.
Proof. unfold unset_step. now destruct (has_legacy tk u). Qed.

Lemma unset_step_has_legacy tk tk' u :
  has_legacy tk' (unset_step tk u) = has_legacy tk' u && negb (tk' =? tk).
Proof.
  unfold unset_step, has_legacy.
  destruct (fcmToken u) as [t|] eqn:F; [|now rewrite F].
  destruct (t =? tk) eqn:E; simpl.
  - apply String.eqb_eq in E. subst t.
    destruct (tk =? tk') eqn:E'; simpl; [|reflexivity].
    apply String.eqb_eq in E'. subst. now rewrite String.eqb_refl.
  - rewrite F. destruct (t =? tk') eqn:E'; simpl; [|reflexivity].
    apply String.eqb_eq in E'. subst t. now rewrite E.
Qed.









(** What every value pushed by a loop satisfies. *)
Lemma mapM_each {A B} (Q : B -> Prop) (f : A -> M B) l :
  (forall x w y w', In x l -> f x w = (inr y, w') -> Q y) ->
  forall w ys w', mapM f l w = (inr ys, w') -> Forall Q ys.
Proof.
  induction l as [|x r IH]; intros Hf w ys w' H; simpl in H.
  - inversion H. constructor.
  - unfold bind at 1 in H. destruct (f x w) as [[e|y] w1] eqn:Hx;
      [discriminate|].
    unfold bind in H. destruct (mapM f r w1) as [[e|zs] w2] eqn:Hr;
      [discriminate|].
    inversion H; subst. constructor.
    + eapply Hf; [now left|exact Hx].
    + eapply IH; [|exact Hr]. intros z v y' v' Hz. apply Hf. now right.
Qed.







Lemma forEach_adds {A} c (f : A -> M unit) (g : A -> nat) l :
  (forall x, total (f x)) ->
  (forall x w, count c (trace (snd (f x w))) = count c (trace w) + g x) ->
  forall w,
    count c (trace (snd (forEach f l w)))
    = count c (trace w) + list_sum (map g l).
Proof.
  intros Ht Hf. induction l as [|x r IH]; intros w; simpl.
  - now rewrite Nat.add_0_r.
  - assert (Hx := Hf x w). destruct (Ht x w) as [y Hy].
    unfold bind. destruct (f x w) as [[e|[]] w1]; simpl in *; [discriminate|].
    rewrite IH, Hx. lia.
Qed.









(* ===================================================================== *)
(** ** Further properties: the task endpoint and the service *)
(* ===================================================================== *)

(** The string with the given bytes. *)
Definition bytes (l : list nat) : string :=
  fold_right (fun n s => String (ascii_of_nat n) s) "" l.

(** The UTF-8 forms of the code points that ECMAScript counts as white
    space or as line terminators: U+0009..U+000D, U+0020, U+00A0, U+1680,
    U+2000..U+200A, U+2028, U+2029, U+202F, U+205F, U+3000, U+FEFF. *)
Definition white_space : list string :=
  map bytes
      [[9]; [10]; [11]; [12]; [13]; [32]; [194; 160]; [225; 154; 128];
       [226; 128; 128]; [226; 128; 129]; [226; 128; 130]; [226; 128; 131];
       [226; 128; 132]; [226; 128; 133]; [226; 128; 134]; [226; 128; 135];
       [226; 128; 136]; [226; 128; 137]; [226; 128; 138]; [226; 128; 168];
       [226; 128; 169]; [226; 128; 175]; [226; 129; 159]; [227; 128; 128];
       [239; 187; 191]].

(** The characters of [cs] one after the other. *)
Definition joined (cs : list string) : string := fold_right append "" cs.

Lemma blank_after_space c s : In c white_space -> blank (c ++ s) = blank s.
Proof.
  unfold white_space. cbn [map].
  intros H. repeat (destruct H as [<-|H]; [reflexivity|]). destruct H.
Qed.

Lemma blank_joined cs :
  Forall (fun c => In c white_space) cs -> blank (joined cs) = true.
Proof.
  induction 1 as [|c r Hc _ IH]; [reflexivity|].
  cbn [joined fold_right]. fold (joined r).
  now rewrite (blank_after_space c (joined r) Hc).
Qed.

(** X1.  A task whose title is made of white space only, of any length and
    of any of the characters that [trim] removes (the no-break space and
    the byte order mark among them), or is empty, is refused with 400 before
    anything happens: no task is saved and no call is made to the storage
    or to the gateway. *)
Theorem blank_title_rejected env uid cs desc a w :
  Forall (fun c => In c white_space) cs ->
  post_tasks env uid (joined cs) desc a w
  = (mkResponse 400 (ErrorBody "title is required"), w).
Proof.
  intros Hcs. unfold post_tasks, respond.
  rewrite (blank_joined cs Hcs), orb_true_r. reflexivity.
Qed.

Lemma blank_title_rejected_witness :
  post_tasks (Sample.env_with Sample.never (HttpReply 200 "{ok}"))
             "u0" (joined [" "; bytes [194; 160]; bytes [9]; bytes [239; 187; 191]])
             "text" (Assignees ["u1"]) Sample.start
  = (mkResponse 400 (ErrorBody "title is required"), Sample.start).
Proof.
  apply (blank_title_rejected
           (Sample.env_with Sample.never (HttpReply 200 "{ok}"))
           "u0" [" "; bytes [194; 160]; bytes [9]; bytes [239; 187; 191]]
           "text" (Assignees ["u1"]) Sample.start).
  repeat (apply Forall_cons; [vm_compute; tauto|]). apply Forall_nil.
Defined.

(** Whether a reply of the gateway makes the send succeed. *)
Definition accepted (r : GatewayReply) : bool :=
  match r with
  | HttpReply st _ => res_ok st
  | _ => false
  end.

Lemma send_one_run env payload tk w :
  truthy tk = true ->
  exists r,
    send_one env payload tk w
    = (inr r, called (EvSend tk (fcm_message payload)) w)
    /\ r_token r = tk
    /\ r_ok r = accepted (gateway env (clock w) tk).
Proof.
  intros Ht. unfold send_one, try_catch, bind, sendToToken. rewrite Ht.
  cbn [negb].
  destruct (gateway env (clock w) tk) as [m|m|st b]; cbn [accepted];
    try destruct (res_ok st); eexists; (split; [reflexivity|]); now split.
Qed.

(** X2.  One send to a non-empty token never throws to the loop around it:
    it logs exactly one send, and its result carries the token and is ok
    exactly when the gateway answered with a 2xx status. *)
Theorem send_one_outcome env payload tk w :
  truthy tk = true ->
  exists r,
    send_one env payload tk w
    = (inr r, called (EvSend tk (fcm_message payload)) w)
    /\ r_token r = tk
    /\ r_ok r = accepted (gateway env (clock w) tk).
Proof.
  intros Ht. unfold send_one, try_catch, bind, sendToToken. rewrite Ht.
  cbn [negb]. destruct (gateway env (clock w) tk) as [m|m|st b]; cbn [accepted].
  - eexists. split; [reflexivity|]. now split.
  - eexists. split; [reflexivity|]. now split.
  - destruct (res_ok st); eexists; (split; [reflexivity|]); now split.
Qed.

Lemma send_one_outcome_witness :
  exists r,
    send_one (Sample.env_with Sample.never (HttpReply 404 "{gone}"))
             (task_payload Sample.task) "tokB" Sample.start
    = (inr r, called (EvSend "tokB" (fcm_message (task_payload Sample.task)))
                     Sample.start)
    /\ r_token r = "tokB"
    /\ r_ok r = accepted (gateway (Sample.env_with Sample.never
                                     (HttpReply 404 "{gone}"))
                                  (clock Sample.start) "tokB").
Proof.
  apply (send_one_outcome
           (Sample.env_with Sample.never (HttpReply 404 "{gone}"))
           (task_payload Sample.task) "tokB" Sample.start).
  reflexivity.
Defined.

Lemma uniq_from_fresh seen l t :
  In t (uniq_from seen l) -> existsb (String.eqb t) seen = false.
Proof.
  revert seen. induction l as [|x r IH]; intros seen; simpl; [easy|].
  destruct (existsb (String.eqb x) seen) eqn:Hx.
  - apply IH.
  - intros [<-|H]; [exact Hx|].
    apply IH in H. simpl in H. now apply orb_false_elim in H.
Qed.

Lemma uniq_from_NoDup seen l : NoDup (uniq_from seen l).
Proof.
  revert seen. induction l as [|x r IH]; intros seen; simpl; [constructor|].
  destruct (existsb (String.eqb x) seen); [apply IH|].
  constructor; [|apply IH].
  intros H. apply uniq_from_fresh in H. simpl in H.
  now rewrite String.eqb_refl in H.
Qed.

(** The loop over the tokens gives one result per token, in order, and one
    send each, whatever the gateway answers. *)
Lemma send_all_run env payload l :
  Forall (fun t => truthy t = true) l ->
  forall w, exists results w',
    mapM (send_one env payload) l w = (inr results, w')
    /\ map r_token results = l
    /\ count is_send (trace w') = count is_send (trace w) + length l.
Proof.
  induction 1 as [|t r Ht _ IH]; intros w.
  - exists [], w. cbn. repeat split. lia.
  - destruct (send_one_run env payload t w Ht) as [x [Hx [Hxt _]]].
    destruct (IH (called (EvSend t (fcm_message payload)) w))
      as [xs [w' [Hxs [Hts Hc]]]].
    exists (x :: xs), w'. cbn [mapM]. unfold bind. rewrite Hx, Hxs.
    cbn. rewrite Hxt, Hts. repeat split.
    rewrite Hc, count_called. cbn. lia.
Qed.

(** X3.  For a user who is found and has at least one token, the service
    returns one result for every distinct token value of the record, in the
    order of first occurrence, and makes exactly that many sends: a failed
    send to one token does not stop the sends to the others. *)
Theorem one_result_per_token env userId payload user w :
  truthy userId = true ->
  storage_fails env (clock w) = false ->
  find_by_id userId (users w) = Some user ->
  gather_tokens user <> [] ->
  exists results w',
    sendNotificationToUserFromDb env userId payload w = (inr results, w')
    /\ map r_token results = uniq (gather_tokens user)
    /\ NoDup (map r_token results)
    /\ count is_send (trace w')
       = count is_send (trace w) + length (uniq (gather_tokens user)).
Proof.
  intros Hid Hs Hfind Hne.
  assert (Ht : Forall (fun t => truthy t = true) (uniq (gather_tokens user))).
  { apply Forall_forall. intros t Hin.
    eapply gather_tokens_truthy, uniq_from_incl, Hin. }
  destruct (send_all_run env payload _ Ht (called (EvFindById userId) w))
    as [rs [w' [Hrun [Htk Hc]]]].
  exists rs, w'. split; [|split; [exact Htk|split]].
  - unfold sendNotificationToUserFromDb. rewrite Hid. cbn [negb].
    unfold bind, User_findById, query, storage. rewrite Hs.
    cbn [users called]. rewrite Hfind.
    fold (called (EvFindById userId) w).
    destruct (gather_tokens user) as [|t0 ts] eqn:Hg; [easy|].
    cbn [length Nat.eqb]. exact Hrun.
  - rewrite Htk. apply uniq_from_NoDup.
  - rewrite Hc, count_called. cbn. lia.
Qed.

Lemma one_result_per_token_witness :
  exists results w',
    sendNotificationToUserFromDb
      (Sample.env_with Sample.never (FetchError "ECONNRESET"))
      "u2" (task_payload Sample.task) Sample.start = (inr results, w')
    /\ map r_token results = uniq (gather_tokens Sample.U2)
    /\ NoDup (map r_token results)
    /\ count is_send (trace w')
       = count is_send (trace Sample.start)
         + length (uniq (gather_tokens Sample.U2)).
Proof.
  apply (one_result_per_token
           (Sample.env_with Sample.never (FetchError "ECONNRESET"))
           "u2" (task_payload Sample.task) Sample.U2 Sample.start);
    try reflexivity.
  discriminate.
Defined.

(* ===================================================================== *)
(** ** Further properties: the dispatcher *)
(* ===================================================================== *)

Definition entry_user (e : SummaryEntry) : string :=
  match e with
  | Sent u _ _ _ => u
  | Threw u _ => u
  end.

Lemma mapM_map {A B C} (g : B -> C) (h : A -> C) (f : A -> M B) l :
  (forall x w y w', f x w = (inr y, w') -> g y = h x) ->
  forall w ys w', mapM f l w = (inr ys, w') -> map g ys = map h l.
Proof.
  intros Hf. induction l as [|x r IH]; intros w ys w' H; simpl in H.
  - inversion H. reflexivity.
  - unfold bind at 1 in H. destruct (f x w) as [[e|y] w1] eqn:Hx;
      [discriminate|].
    unfold bind in H. destruct (mapM f r w1) as [[e|zs] w2] eqn:Hr;
      [discriminate|].
    inversion H; subst. simpl. f_equal; [eapply Hf, Hx|eapply IH, Hr].
Qed.

Lemma notify_user_entry env task u w e w' :
  notify_user env task u w = (inr e, w') -> entry_user e = _id u.
Proof.
  unfold notify_user, try_catch, bind.
  destruct (sendNotificationToUserFromDb env (_id u) (task_payload task) w)
    as [[err|results] w1]; cbn; intros H; inversion H; reflexivity.
Qed.

(** X4.  When the batched lookup succeeds, the report has exactly one entry
    for every user the lookup found, in the order of the collection,
    whether the sends for a user succeeded, failed or could not start. *)
Theorem report_lists_every_user env task id ids w :
  storage_fails env (clock w) = false ->
  exists summary,
    fst (sendTaskAssignedNotifications env task (Some (id :: ids)) w)
    = inr (Report summary (flat_map failed_of summary))
    /\ map entry_user summary = map _id (find_in (id :: ids) (users w)).
Proof.
  intros Hs. unfold sendTaskAssignedNotifications.
  assert (Hfind : User_find env (id :: ids) w
                  = (inr (find_in (id :: ids) (users w)),
                     called (EvFind (id :: ids)) w)).
  { unfold User_find, query, storage. now rewrite Hs. }
  rewrite (bind_run _ _ _ _ _ Hfind).
  destruct (total_mapM (notify_user env task) (find_in (id :: ids) (users w))
              (total_notify_user env task) (called (EvFind (id :: ids)) w))
    as [s Hsum].
  destruct (mapM (notify_user env task) (find_in (id :: ids) (users w))
              (called (EvFind (id :: ids)) w)) as [[e|s'] w1] eqn:Hm;
    simpl in Hsum; [discriminate|].
  exists s'. split.
  - unfold bind. rewrite Hm.
    destruct (total_cleanup env (flat_map failed_of s') w1) as [[] Hc].
    destruct (cleanup env (flat_map failed_of s') w1) as [[e|[]] w2];
      simpl in Hc; [discriminate|reflexivity].
  - eapply mapM_map; [|exact Hm].
    intros x v y v'. apply notify_user_entry.
Qed.

Lemma report_lists_every_user_witness :
  exists summary,
    fst (sendTaskAssignedNotifications
           (Sample.env_with Sample.never (FetchError "ECONNRESET"))
           Sample.task (Some ["u3"; "u9"; "u1"]) Sample.start)
    = inr (Report summary (flat_map failed_of summary))
    /\ map entry_user summary
       = map _id (find_in ["u3"; "u9"; "u1"] (users Sample.start)).
Proof.
  apply (report_lists_every_user
           (Sample.env_with Sample.never (FetchError "ECONNRESET"))
           Sample.task "u3" ["u9"; "u1"] Sample.start).
  reflexivity.
Defined.

Lemma service_all_ok env userId payload w results w' :
  (forall n tk, accepted (gateway env n tk) = true) ->
  sendNotificationToUserFromDb env userId payload w = (inr results, w') ->
  Forall (fun r => r_ok r = true) results.
Proof.
  intros Hgw. unfold sendNotificationToUserFromDb.
  destruct (truthy userId); cbn [negb]; [|discriminate].
  unfold bind. destruct (User_findById env userId w) as [[e|[user|]] w1];
    try discriminate.
  destruct (length (gather_tokens user) =? 0)%nat; [discriminate|].
  apply mapM_each. intros tk v r v' Htk Hr.
  assert (Ht : truthy tk = true)
    by (eapply gather_tokens_truthy, uniq_from_incl, Htk).
  destruct (send_one_run env payload tk v Ht) as [x [Hx [_ Hok]]].
  rewrite Hx in Hr. inversion Hr; subst. now rewrite Hok.
Qed.

Lemma filter_none {A} (p : A -> bool) l :
  Forall (fun x => p x = false) l -> filter p l = [].
Proof.
  induction 1 as [|x r Hx _ IH]; simpl; [reflexivity|]. now rewrite Hx.
Qed.

Lemma notify_user_none_failed env task u w e w' :
  (forall n tk, accepted (gateway env n tk) = true) ->
  notify_user env task u w = (inr e, w') -> failed_of e = [].
Proof.
  intros Hgw. unfold notify_user, try_catch, bind.
  destruct (sendNotificationToUserFromDb env (_id u) (task_payload task) w)
    as [[err|results] w1] eqn:Hs; cbn; intros H; inversion H; subst;
    [reflexivity|].
  cbn [failed_of]. rewrite filter_none; [reflexivity|].
  eapply Forall_impl; [|eapply service_all_ok; eassumption].
  intros r Hr. cbn in Hr. now rewrite Hr.
Qed.

Lemma send_is_no_removal ev :
  is_send ev = true \/ is_lookup ev = true -> is_removal ev = false.
Proof. destruct ev; cbn; intros [H|H]; try reflexivity; discriminate. Qed.

(** X5.  When the gateway accepts every send, a dispatch lists no token
    for cleanup, makes no removal call and leaves every user record as it
    was. *)
Theorem accepted_sends_change_nothing env task ids w :
  (forall n tk, accepted (gateway env n tk) = true) ->
  users (snd (sendTaskAssignedNotifications env task ids w)) = users w
  /\ count is_removal
           (trace (snd (sendTaskAssignedNotifications env task ids w)))
     = count is_removal (trace w)
  /\ (forall summary failed,
        fst (sendTaskAssignedNotifications env task ids w)
        = inr (Report summary failed) -> failed = []).
Proof.
  intros Hgw. destruct ids as [[|id ids]|];
    try (cbn; repeat split; discriminate).
  unfold sendTaskAssignedNotifications, bind, User_find, query, storage.
  destruct (storage_fails env (clock w)).
  - cbn [fst snd]. rewrite count_called. cbn. repeat split; try lia.
    discriminate.
  - cbn [users called]. fold (called (EvFind (id :: ids)) w).
    set (w0 := called (EvFind (id :: ids)) w).
    set (found := find_in (id :: ids) (users w)).
    assert (Hu : users (snd (mapM (notify_user env task) found w0)) = users w)
      by (apply (keeps_mapM (fun x => users x = users w));
          [intros x _; apply keeps_notify_user; now intros|reflexivity]).
    assert (Hc : count is_removal
                   (trace (snd (mapM (notify_user env task) found w0)))
                 = count is_removal (trace w)).
    { apply (keeps_mapM (fun x => count is_removal (trace x)
                                  = count is_removal (trace w))).
      - intros x _. apply keeps_notify_user. intros ev v Hev Hv.
        rewrite count_called, (send_is_no_removal ev Hev). lia.
      - unfold w0. rewrite count_called. cbn. lia. }
    destruct (mapM (notify_user env task) found w0) as [[e|s] w1] eqn:Hm;
      cbn [snd] in Hu, Hc.
    + cbn [fst snd]. repeat split; try assumption. discriminate.
    + assert (Hnone : flat_map failed_of s = []).
      { assert (Hall : Forall (fun e => failed_of e = []) s).
        { eapply mapM_each; [|exact Hm]. intros x v y v' _.
          now apply notify_user_none_failed. }
        clear Hm. induction Hall as [|e r He _ IH]; cbn; [reflexivity|].
        now rewrite He, IH. }
      rewrite Hnone. cbn. repeat split; try assumption.
      intros summary failed H. now inversion H.
Qed.

Lemma accepted_sends_change_nothing_witness :
  users (snd (sendTaskAssignedNotifications
                (Sample.env_with Sample.never (HttpReply 200 "{ok}"))
                Sample.task (Some ["u1"; "u2"]) Sample.start))
  = users Sample.start.
Proof.
  apply (accepted_sends_change_nothing
           (Sample.env_with Sample.never (HttpReply 200 "{ok}"))
           Sample.task (Some ["u1"; "u2"]) Sample.start).
  intros n tk. cbn. unfold Sample.gw. now destruct (tk =? "tokB").
Defined.

(** What a dispatch may do to a record: nothing but take tokens away. *)
Definition shrinks (u u' : User) : Prop :=
  _id u' = _id u /\ name u' = name u /\ email u' = email u
  /\ password u' = password u /\ role u' = role u
  /\ (forall tk, holds_token tk u' = true -> holds_token tk u = true)
  /\ (forall tk, has_legacy tk u' = true -> has_legacy tk u = true).

Lemma shrinks_refl u : shrinks u u.
Proof. repeat split; auto. Qed.

Lemma shrinks_pull_step tk u v : shrinks u v -> shrinks u (pull_step tk v).
Proof.
  intros [H1 [H2 [H3 [H4 [H5 [H6 H7]]]]]].
  assert (E : _id (pull_step tk v) = _id v /\ name (pull_step tk v) = name v
              /\ email (pull_step tk v) = email v
              /\ password (pull_step tk v) = password v
              /\ role (pull_step tk v) = role v)
    by (unfold pull_step; destruct (holds_token tk v); repeat split).
  destruct E as [E1 [E2 [E3 [E4 E5]]]].
  repeat split; try congruence.
  - intros tk' H. rewrite pull_step_holds_token in H.
    apply andb_true_iff in H as [H _]. now apply H6.
  - intros tk' H. rewrite pull_step_has_legacy in H. now apply H7.
Qed.

Lemma shrinks_unset_step tk u v : shrinks u v -> shrinks u (unset_step tk v).
Proof.
  intros [H1 [H2 [H3 [H4 [H5 [H6 H7]]]]]].
  assert (E : _id (unset_step tk v) = _id v /\ name (unset_step tk v) = name v
              /\ email (unset_step tk v) = email v
              /\ password (unset_step tk v) = password v
              /\ role (unset_step tk v) = role v)
    by (unfold unset_step; destruct (has_legacy tk v); repeat split).
  destruct E as [E1 [E2 [E3 [E4 E5]]]].
  repeat split; try congruence.
  - intros tk' H. rewrite unset_step_holds_token in H. now apply H6.
  - intros tk' H. rewrite unset_step_has_legacy in H.
    apply andb_true_iff in H as [H _]. now apply H7.
Qed.

Lemma Forall2_map_right {A} (R : A -> A -> Prop) (f : A -> A) l l' :
  (forall a b, R a b -> R a (f b)) ->
  Forall2 R l l' -> Forall2 R l (map f l').
Proof.
  intros Hf H. induction H; simpl; constructor; auto.
Qed.

(** X6.  Whatever the gateway answers and whichever storage calls fail, a
    dispatch creates no user record and deletes none; every record keeps its
    identity, name, email, password and role, and holds afterwards only
    tokens that it held before. *)
Theorem dispatch_only_removes_tokens env task ids w :
  Forall2 shrinks (users w)
          (users (snd (sendTaskAssignedNotifications env task ids w))).
Proof.
  assert (H0 : Forall2 shrinks (users w) (users w)).
  { induction (users w); constructor; [apply shrinks_refl|assumption]. }
  revert H0. generalize (users w) at 1 3 as db. intros db H0.
  revert w H0.
  change (keeps (fun x => Forall2 shrinks db (users x))
                (sendTaskAssignedNotifications env task ids)).
  unfold sendTaskAssignedNotifications.
  destruct ids as [[|id ids]|]; try apply keeps_ret.
  apply keeps_bind.
  - apply keeps_storage; now intros w H.
  - intros found. apply keeps_bind.
    + apply keeps_mapM. intros u _. apply keeps_notify_user. now intros.
    + intros s. apply keeps_bind; [|intros _; apply keeps_ret].
      apply keeps_cleanup.
      * now intros.
      * intros f w _ H. cbn [set_users users].
        apply (Forall2_map_right shrinks (pull_step (f_token f))); [|exact H].
        intros a b. apply shrinks_pull_step.
      * intros f w _ H. cbn [set_users users].
        apply (Forall2_map_right shrinks (unset_step (f_token f))); [|exact H].
        intros a b. apply shrinks_unset_step.
Qed.

Lemma without_twice tk u : without tk (without tk u) = without tk u.
Proof. apply without_absent, without_holds. Qed.

(** X7.  Removing a token value twice leaves the registry as removing it
    once does. *)
Theorem removeToken_idempotent env tk w :
  reliable env ->
  users (snd (removeToken env tk (snd (removeToken env tk w))))
  = users (snd (removeToken env tk w)).
Proof.
  intros Hrel.
  rewrite (removeToken_run env tk w (Hrel _) (Hrel _)). cbn [snd].
  rewrite (removeToken_run env tk _ (Hrel _) (Hrel _)). cbn [snd users].
  rewrite map_map. apply map_ext. intros u. apply without_twice.
Qed.

Lemma removeToken_idempotent_witness :
  users (snd (removeToken (Sample.env_with Sample.never (HttpReply 200 "{ok}"))
                "tokA"
                (snd (removeToken
                        (Sample.env_with Sample.never (HttpReply 200 "{ok}"))
                        "tokA" Sample.start))))
  = users (snd (removeToken
                  (Sample.env_with Sample.never (HttpReply 200 "{ok}"))
                  "tokA" Sample.start)).
Proof.
  apply (removeToken_idempotent
           (Sample.env_with Sample.never (HttpReply 200 "{ok}"))
           "tokA" Sample.start).
  intros n. reflexivity.
Defined.

Definition is_pull (ev : Event) : bool :=
  match ev with EvPull _ => true | _ => false end.

Lemma remove_round_pulls env tk w :
  count is_pull
        (trace (snd (try_catch (removeToken env tk) (fun _ => ret tt) w)))
  = count is_pull (trace w) + 1.
Proof.
  unfold try_catch, removeToken, bind, update, storage.
  destruct (storage_fails env (clock w)); cbn [snd ret].
  - now rewrite count_called.
  - cbn [clock called set_users].
    destruct (storage_fails env (S (clock w))); cbn [snd ret];
      unfold count, called, set_users; cbn [trace];
      rewrite !filter_app, !length_app; cbn; lia.
Qed.

(** X8.  The cleanup never throws and attempts the removal of every token
    on its list: one pull per listed token, also after the removal of an
    earlier token was rejected by the storage. *)
Theorem cleanup_attempts_every_token env l w :
  fst (cleanup env l w) = inr tt
  /\ count is_pull (trace (snd (cleanup env l w)))
     = count is_pull (trace w) + length l.
Proof.
  split.
  - destruct (total_cleanup env l w) as [[] H]. exact H.
  - unfold cleanup. destruct l as [|f r]; [cbn; lia|].
    cbn [length Nat.ltb Nat.leb].
    rewrite (forEach_adds is_pull _ (fun _ => 1)).
    + f_equal.
      assert (Hk : forall k : list FailedToken,
                 list_sum (map (fun _ => 1) k) = length k)
        by (induction k; simpl; [reflexivity|now f_equal]).
      apply (Hk (f :: r)).
    + intros x. apply total_try_catch. intros e. apply total_ret.
    + intros x v. apply remove_round_pulls.
Qed.

(* ===================================================================== *)
(** ** Further properties: the token endpoints *)
(* ===================================================================== *)

Lemma find_by_id_has_id uid db u : find_by_id uid db = Some u -> has_id uid u = true.
Proof. intros H. now apply find_some in H. Qed.

(** The record found under an identity after an update of the first match. *)
Lemma find_update_one uid p f db u :
  (forall v, p v = true -> has_id uid v = true) ->
  (forall v, _id (f v) = _id v) ->
  find_by_id uid db = Some u ->
  find_by_id uid (update_one p f db) = Some (if p u then f u else u).
Proof.
  intros Hp Hf. unfold find_by_id.
  induction db as [|x r IH]; intros H; simpl in *; [discriminate|].
  destruct (has_id uid x) eqn:Hx.
  - inversion H; subst. destruct (p u); simpl.
    + unfold has_id in *. now rewrite Hf, Hx.
    + now rewrite Hx.
  - destruct (p x) eqn:Px; [now rewrite (Hp x Px) in Hx|].
    simpl. rewrite Hx. now apply IH.
Qed.

Lemma added_found uid tk pf t db u :
  find_by_id uid db = Some u ->
  find_by_id uid (added uid tk pf t db)
  = Some (set_fcmToken
            (if holds_token tk u then u
             else set_fcmTokens u (fcmTokens u ++ [mkTokenEntry tk pf t]))
            (Some tk)).
Proof.
  intros H. assert (Hu := find_by_id_has_id uid db u H).
  unfold added, set_legacy, push_token.
  erewrite find_update_one; [| now intros | now intros |].
  2: { apply find_update_one; [|now intros|exact H].
       intros v Hv. now apply andb_true_iff in Hv. }
  cbn [token]. rewrite Hu. cbn [andb].
  destruct (holds_token tk u); cbn [negb]; [now rewrite Hu|].
  assert (E : has_id uid (set_fcmTokens u (fcmTokens u ++ [mkTokenEntry tk pf t]))
              = true) by exact Hu.
  now rewrite E.
Qed.

Lemma uniq_from_complete seen l t :
  In t l -> existsb (String.eqb t) seen = false -> In t (uniq_from seen l).
Proof.
  revert seen. induction l as [|x r IH]; intros seen Hin Hs; [easy|].
  simpl. destruct (String.eqb_spec t x) as [->|Hne].
  - rewrite Hs. now left.
  - destruct Hin as [->|Hin]; [easy|].
    destruct (existsb (String.eqb x) seen); [now apply IH|].
    right. apply IH; [exact Hin|]. simpl.
    apply String.eqb_neq in Hne. now rewrite Hne.
Qed.

(** X9.  After POST /api/tasks/device-token has gone through for an
    existing user, the user's record holds the token in its collection and
    in the legacy field, and the token list that the notification service
    builds from the record has the value exactly once. *)
Theorem registered_token_is_gathered env uid tk pf w u :
  truthy tk = true ->
  storage_fails env (clock w) = false ->
  storage_fails env (S (clock w)) = false ->
  find_by_id uid (users w) = Some u ->
  exists u',
    find_by_id uid (users (snd (post_device_token env uid tk pf w))) = Some u'
    /\ holds_token tk u' = true
    /\ fcmToken u' = Some tk
    /\ In tk (uniq (gather_tokens u'))
    /\ NoDup (uniq (gather_tokens u')).
Proof.
  intros Ht H1 H2 Hfind.
  rewrite (post_device_token_run env uid tk pf w Ht H1 H2). cbn [snd users].
  rewrite (added_found uid tk _ _ _ u Hfind).
  eexists. split; [reflexivity|]. split; [|split; [reflexivity|split]].
  - destruct (holds_token tk u) eqn:Hh; [exact Hh|].
    apply (holds_token_pushed tk (mkTokenEntry tk (or_default pf "") (clock w)) u).
    reflexivity.
  - apply uniq_from_complete; [|reflexivity].
    unfold gather_tokens. apply in_or_app. right. cbn [fcmToken set_fcmToken].
    rewrite Ht. now left.
  - apply uniq_from_NoDup.
Qed.

Lemma registered_token_is_gathered_witness :
  exists u',
    find_by_id "u3"
      (users (snd (post_device_token
                     (Sample.env_with Sample.never (HttpReply 200 "{ok}"))
                     "u3" "tokC" "ios" Sample.start))) = Some u'
    /\ holds_token "tokC" u' = true
    /\ fcmToken u' = Some "tokC"
    /\ In "tokC" (uniq (gather_tokens u'))
    /\ NoDup (uniq (gather_tokens u')).
Proof.
  apply (registered_token_is_gathered
           (Sample.env_with Sample.never (HttpReply 200 "{ok}"))
           "u3" "tokC" "ios" Sample.start Sample.U3); reflexivity.
Defined.

Lemma filter_pushed tk (l : list TokenEntry) e :
  existsb (fun x => token x =? tk) l = false -> token e = tk ->
  filter (fun x => negb (token x =? tk)) (l ++ [e]) = l.
Proof.
  intros Hl He. rewrite filter_app. simpl. rewrite He, String.eqb_refl. simpl.
  rewrite app_nil_r. induction l as [|x r IH]; simpl in *; [reflexivity|].
  apply orb_false_elim in Hl as [Hx Hr]. rewrite Hx. simpl. now rewrite IH.
Qed.

Lemma pull_own_pushed uid tk e db :
  token e = tk ->
  (forall u, In u db -> has_id uid u = true -> holds_token tk u = false) ->
  pull_own uid tk (push_token uid e db) = db.
Proof.
  intros He. unfold pull_own, push_token. rewrite He.
  induction db as [|x r IH]; intros H; simpl; [reflexivity|].
  destruct (has_id uid x) eqn:Hx; simpl.
  - assert (Hh := H x (or_introl eq_refl) Hx). rewrite Hh. simpl.
    unfold has_id at 1. cbn [_id set_fcmTokens]. fold (has_id uid x).
    rewrite Hx. f_equal. unfold pull_entry. cbn [fcmTokens set_fcmTokens].
    rewrite (filter_pushed tk (fcmTokens x) e Hh He). now destruct x.
  - rewrite Hx. f_equal. apply IH. intros u Hu. apply H. now right.
Qed.

(** X10.  The two token endpoints of the user routes undo each other:
    registering a token value that the user does not hold and then removing
    it leaves every user record exactly as it was. *)
Theorem users_add_then_remove env uid tk pf w :
  truthy tk = true ->
  storage_fails env (clock w) = false ->
  storage_fails env (S (clock w)) = false ->
  (forall u, In u (users w) -> has_id uid u = true -> holds_token tk u = false) ->
  fst (users_post_remove_token env uid tk
         (snd (users_post_device_token env uid tk pf w)))
  = mkResponse 200 (MsgBody "Token removed")
  /\ users (snd (users_post_remove_token env uid tk
                   (snd (users_post_device_token env uid tk pf w))))
     = users w.
Proof.
  intros Ht H1 H2 Hnew.
  unfold users_post_remove_token, users_post_device_token, respond, bind, now,
    update, storage.
  rewrite Ht. cbn [negb]. rewrite H1. cbn [snd fst ret clock called set_users].
  rewrite H2. cbn [snd fst ret users set_users called].
  split; [reflexivity|]. now apply pull_own_pushed.
Qed.

Lemma users_add_then_remove_witness :
  users (snd (users_post_remove_token
                (Sample.env_with Sample.never (HttpReply 200 "{ok}"))
                "u1" "tokZ"
                (snd (users_post_device_token
                        (Sample.env_with Sample.never (HttpReply 200 "{ok}"))
                        "u1" "tokZ" "android" Sample.start))))
  = users Sample.start.
Proof.
  apply (users_add_then_remove
           (Sample.env_with Sample.never (HttpReply 200 "{ok}"))
           "u1" "tokZ" "android" Sample.start); try reflexivity.
  intros u [<-|[<-|[<-|[]]]] H; reflexivity || discriminate.
Defined.

(** X11.  POST /api/users/remove-token does not undo POST
    /api/tasks/device-token: it takes the token out of the user's
    collection but leaves the legacy field, so the notification service
    still gathers the value from the record. *)
Theorem legacy_survives_remove_token env uid tk pf w u :
  truthy tk = true ->
  storage_fails env (clock w) = false ->
  storage_fails env (S (clock w)) = false ->
  storage_fails env (S (S (clock w))) = false ->
  find_by_id uid (users w) = Some u ->
  exists u',
    find_by_id uid
      (users (snd (users_post_remove_token env uid tk
                     (snd (post_device_token env uid tk pf w))))) = Some u'
    /\ holds_token tk u' = false
    /\ fcmToken u' = Some tk
    /\ In tk (gather_tokens u').
Proof.
  intros Ht H1 H2 H3 Hfind.
  rewrite (post_device_token_run env uid tk pf w Ht H1 H2). cbn [snd].
  unfold users_post_remove_token, respond, bind, update, storage.
  rewrite Ht. cbn [negb clock]. rewrite H3.
  cbn [snd fst ret users set_users called].
  unfold pull_own.
  erewrite find_update_one;
    [| now intros | now intros | apply added_found, Hfind].
  assert (E : forall v, has_id uid (set_fcmToken v (Some tk)) = has_id uid v)
    by reflexivity.
  rewrite E.
  assert (Hu := find_by_id_has_id uid _ u Hfind).
  replace (has_id uid (if holds_token tk u then u
                       else set_fcmTokens u
                              (fcmTokens u ++
                               [mkTokenEntry tk (or_default pf "") (clock w)])))
    with true by (destruct (holds_token tk u); now rewrite <- Hu).
  eexists. split; [reflexivity|]. split; [|split; [reflexivity|]].
  - rewrite holds_token_pull_entry, String.eqb_refl. apply andb_false_r.
  - unfold gather_tokens. apply in_or_app. right.
    cbn [fcmToken pull_entry set_fcmTokens set_fcmToken]. rewrite Ht. now left.
Qed.

Lemma legacy_survives_remove_token_witness :
  exists u',
    find_by_id "u3"
      (users (snd (users_post_remove_token
                     (Sample.env_with Sample.never (HttpReply 200 "{ok}"))
                     "u3" "tokC"
                     (snd (post_device_token
                             (Sample.env_with Sample.never (HttpReply 200 "{ok}"))
                             "u3" "tokC" "ios" Sample.start))))) = Some u'
    /\ holds_token "tokC" u' = false
    /\ fcmToken u' = Some "tokC"
    /\ In "tokC" (gather_tokens u').
Proof.
  apply (legacy_survives_remove_token
           (Sample.env_with Sample.never (HttpReply 200 "{ok}"))
           "u3" "tokC" "ios" Sample.start Sample.U3); reflexivity.
Defined.

(* ===================================================================== *)
(** ** Further properties: registration, login, the admin seed *)
(* ===================================================================== *)

Lemma find_by_email_added mail db u :
  find_by_email mail db = None -> email u = mail ->
  find_by_email mail (db ++ [u]) = Some u.
Proof.
  unfold find_by_email. intros Hnone He.
  induction db as [|x r IH]; simpl in *.
  - now rewrite He, String.eqb_refl.
  - destruct (email x =? mail); [discriminate|]. now apply IH.
Qed.

(** What a registration that goes through answers and leaves. *)
Lemma post_register_run env nm mail pw r w :
  find_by_email mail (users w) = None ->
  truthy nm = true ->
  truthy mail = true ->
  truthy (jwt_secret env) = true ->
  storage_fails env (clock w) = false ->
  storage_fails env (S (clock w)) = false ->
  In (opt_or_default r "user") role_enum ->
  post_register env nm mail (Some pw) r w
  = (mkResponse 200
       (Registered (mkJwt (fresh_id env (S (clock w))) (opt_or_default r "user")
                          (jwt_secret env))
                   (fresh_id env (S (clock w))) nm mail
                   (opt_or_default r "user")),
     mkWorld (users w
              ++ [mkUser (fresh_id env (S (clock w))) nm mail
                         ("$2a$10$" ++ digest env pw)
                         (opt_or_default r "user") [] None])
             (tasks w) (S (S (clock w)))
             (trace w ++ [EvFindOne mail; EvSaveUser (fresh_id env (S (clock w)))])).
Proof.
  intros Hnew Hn Hm Hs H1 H2 Hr.
  unfold post_register, respond, bind, User_findOne, query, storage.
  rewrite H1. cbn [users called]. rewrite Hnew.
  unfold bcrypt_hash, ret, now, User_save, validate_user, jwt_sign.
  cbn [name email password role clock called _id].
  rewrite Hn, Hm, (in_enum _ Hr), Hs.
  change (truthy ("$2a$10$" ++ digest env pw)) with true. cbn [andb].
  unfold storage. cbn [clock called]. rewrite H2.
  unfold set_users, called. cbn [users tasks clock trace].
  now rewrite <- app_assoc.
Qed.

(** X12.  After a registration has gone through, a second registration
    with the same email, whatever its other fields, is refused with 400 and
    creates nothing: it makes the one lookup and no more. *)
Theorem register_twice env nm mail pw r nm2 pw2 r2 w :
  find_by_email mail (users w) = None ->
  truthy nm = true ->
  truthy mail = true ->
  truthy (jwt_secret env) = true ->
  storage_fails env (clock w) = false ->
  storage_fails env (S (clock w)) = false ->
  storage_fails env (S (S (clock w))) = false ->
  In (opt_or_default r "user") role_enum ->
  post_register env nm2 mail pw2 r2
                (snd (post_register env nm mail (Some pw) r w))
  = (mkResponse 400 (MsgBody "User already exists"),
     called (EvFindOne mail) (snd (post_register env nm mail (Some pw) r w))).
Proof.
  intros Hnew Hn Hm Hs H1 H2 H3 Hr.
  rewrite (post_register_run env nm mail pw r w Hnew Hn Hm Hs H1 H2 Hr).
  cbn [snd].
  unfold post_register, respond, bind, User_findOne, query, storage.
  cbn [clock]. rewrite H3. cbn [users called].
  erewrite (find_by_email_added mail (users w)); [reflexivity|exact Hnew|].
  reflexivity.
Qed.

Lemma register_twice_witness :
  fst (post_register (Sample.env_with Sample.never (HttpReply 200 "{ok}"))
         "Mallory" "eve@example.com" (Some "other") (Some "admin")
         (snd (post_register
                 (Sample.env_with Sample.never (HttpReply 200 "{ok}"))
                 "Eve" "eve@example.com" (Some "pw") None Sample.start)))
  = mkResponse 400 (MsgBody "User already exists").
Proof.
  rewrite (register_twice
             (Sample.env_with Sample.never (HttpReply 200 "{ok}"))
             "Eve" "eve@example.com" "pw" None "Mallory" (Some "other")
             (Some "admin") Sample.start); try reflexivity.
  simpl. right. now left.
Defined.

(** X13.  A user who has just registered can log in with the same email
    and password: the login answers exactly what the registration
    answered, a credential with the same identity and role, and changes no
    record. *)
Theorem register_then_login env nm mail pw r w :
  find_by_email mail (users w) = None ->
  truthy nm = true ->
  truthy mail = true ->
  truthy (jwt_secret env) = true ->
  storage_fails env (clock w) = false ->
  storage_fails env (S (clock w)) = false ->
  storage_fails env (S (S (clock w))) = false ->
  In (opt_or_default r "user") role_enum ->
  fst (post_login env mail (Some pw)
                  (snd (post_register env nm mail (Some pw) r w)))
  = fst (post_register env nm mail (Some pw) r w)
  /\ users (snd (post_login env mail (Some pw)
                            (snd (post_register env nm mail (Some pw) r w))))
     = users (snd (post_register env nm mail (Some pw) r w)).
Proof.
  intros Hnew Hn Hm Hs H1 H2 H3 Hr.
  rewrite (post_register_run env nm mail pw r w Hnew Hn Hm Hs H1 H2 Hr).
  cbn [snd fst].
  unfold post_login, respond, bind, User_findOne, query, storage.
  cbn [clock]. rewrite H3. cbn [users called].
  erewrite (find_by_email_added mail (users w)); [|exact Hnew|reflexivity].
  unfold bcrypt_compare, ret, jwt_sign. cbn [password].
  rewrite String.eqb_refl, Hs. cbn. now split.
Qed.

Lemma register_then_login_witness :
  fst (post_login (Sample.env_with Sample.never (HttpReply 200 "{ok}"))
         "eve@example.com" (Some "pw")
         (snd (post_register
                 (Sample.env_with Sample.never (HttpReply 200 "{ok}"))
                 "Eve" "eve@example.com" (Some "pw") (Some "user")
                 Sample.start)))
  = fst (post_register (Sample.env_with Sample.never (HttpReply 200 "{ok}"))
           "Eve" "eve@example.com" (Some "pw") (Some "user") Sample.start).
Proof.
  apply (register_then_login
           (Sample.env_with Sample.never (HttpReply 200 "{ok}"))
           "Eve" "eve@example.com" "pw" (Some "user") Sample.start);
    try reflexivity.
  simpl. right. now left.
Defined.

(** X14.  A login request that carries no password tells whether the
    email is registered: after the one lookup it answers 500 for a
    registered email, where comparing the password throws, and 400 for an
    unregistered one; in neither case is a credential issued. *)
Theorem login_without_password env mail w :
  storage_fails env (clock w) = false ->
  post_login env mail None w
  = (match find_by_email mail (users w) with
     | Some _ => mkResponse 500 (Text "Server error")
     | None => mkResponse 400 (MsgBody "Invalid credentials")
     end,
     called (EvFindOne mail) w).
Proof.
  intros H1.
  unfold post_login, respond, bind, User_findOne, query, storage.
  rewrite H1. cbn [users called].
  now destruct (find_by_email mail (users w)).
Qed.

Lemma login_without_password_witness :
  post_login (Sample.env_with Sample.never (HttpReply 200 "{ok}"))
             "ann@example.com" None Sample.start
  = (mkResponse 500 (Text "Server error"),
     called (EvFindOne "ann@example.com") Sample.start)
  /\ post_login (Sample.env_with Sample.never (HttpReply 200 "{ok}"))
                "zed@example.com" None Sample.start
     = (mkResponse 400 (MsgBody "Invalid credentials"),
        called (EvFindOne "zed@example.com") Sample.start).
Proof.
  split.
  - apply (login_without_password
             (Sample.env_with Sample.never (HttpReply 200 "{ok}"))
             "ann@example.com" Sample.start). reflexivity.
  - apply (login_without_password
             (Sample.env_with Sample.never (HttpReply 200 "{ok}"))
             "zed@example.com" Sample.start). reflexivity.
Defined.

Lemma seed_user_valid env t :
  validate_user (mkUser (fresh_id env t) "Admin" "admin@example.com"
                        ("$2a$10$" ++ digest env "Admin@123") "admin" [] None)
  = true.
Proof. reflexivity. Qed.

(** X15.  With a reliable storage the admin seed exits with code 0 and
    leaves a user with the email admin@example.com; running it again adds
    nothing. *)
Theorem seedAdmin_idempotent env w :
  reliable env ->
  fst (seedAdmin env w) = 0
  /\ (exists u, find_by_email "admin@example.com"
                  (users (snd (seedAdmin env w))) = Some u)
  /\ users (snd (seedAdmin env (snd (seedAdmin env w))))
     = users (snd (seedAdmin env w)).
Proof.
  intros Hrel.
  assert (Hseen : forall v u,
            find_by_email "admin@example.com" (users v) = Some u ->
            seedAdmin env v = (0, called (EvFindOne "admin@example.com") v)).
  { intros v u Hu. unfold seedAdmin, bind, User_findOne, query, storage.
    rewrite Hrel. cbn [users called]. now rewrite Hu. }
  destruct (find_by_email "admin@example.com" (users w)) as [u|] eqn:Hfind.
  - rewrite (Hseen w u Hfind). cbn [fst snd].
    rewrite (Hseen (called (EvFindOne "admin@example.com") w) u Hfind).
    cbn [snd users called]. split; [reflexivity|]. split; [|reflexivity].
    now exists u.
  - assert (Hrun : seedAdmin env w
             = (0, mkWorld
                     (users w
                      ++ [mkUser (fresh_id env (S (clock w))) "Admin"
                                 "admin@example.com"
                                 ("$2a$10$" ++ digest env "Admin@123")
                                 "admin" [] None])
                     (tasks w) (S (S (clock w)))
                     (trace w ++ [EvFindOne "admin@example.com";
                                  EvSaveUser (fresh_id env (S (clock w)))]))).
    { unfold seedAdmin, bind, User_findOne, query, storage.
      rewrite Hrel. cbn [users called]. rewrite Hfind.
      unfold bcrypt_hash, ret, now, User_save. cbn [clock called].
      rewrite seed_user_valid. unfold storage. cbn [clock _id].
      rewrite Hrel. unfold set_users, called. cbn [users tasks clock trace].
      now rewrite <- app_assoc. }
    rewrite Hrun. cbn [fst snd].
    assert (Hnow := find_by_email_added "admin@example.com" (users w)
                      (mkUser (fresh_id env (S (clock w))) "Admin"
                              "admin@example.com"
                              ("$2a$10$" ++ digest env "Admin@123")
                              "admin" [] None) Hfind eq_refl).
    split; [reflexivity|]. split; [eexists; exact Hnow|].
    erewrite Hseen; [reflexivity|exact Hnow].
Qed.

Lemma seedAdmin_idempotent_witness :
  fst (seedAdmin (Sample.env_with Sample.never (HttpReply 200 "{ok}"))
                 Sample.start) = 0
  /\ (exists u, find_by_email "admin@example.com"
                  (users (snd (seedAdmin
                                 (Sample.env_with Sample.never
                                    (HttpReply 200 "{ok}"))
                                 Sample.start))) = Some u)
  /\ users (snd (seedAdmin
                   (Sample.env_with Sample.never (HttpReply 200 "{ok}"))
                   (snd (seedAdmin
                           (Sample.env_with Sample.never (HttpReply 200 "{ok}"))
                           Sample.start))))
     = users (snd (seedAdmin
                     (Sample.env_with Sample.never (HttpReply 200 "{ok}"))
                     Sample.start)).
Proof.
  apply (seedAdmin_idempotent
           (Sample.env_with Sample.never (HttpReply 200 "{ok}")) Sample.start).
  intros n. reflexivity.
Defined.

(* ===================================================================== *)
(** ** Further properties: repeating, failing early, what is sent *)
(* ===================================================================== *)

Lemma push_token_twice uid e e' db :
  token e' = token e ->
  NoDup (map _id db) ->
  push_token uid e' (push_token uid e db) = push_token uid e db.
Proof.
  intros He. induction db as [|u r IH]; intros Hnd; [reflexivity|].
  destruct (has_id uid u) eqn:Hu.
  - assert (Hr : forall v, In v r -> has_id uid v = false)
      by (eapply no_other_id; eassumption).
    rewrite (push_token_here uid e u r Hu Hr).
    set (u1 := if holds_token (token e) u then u
               else set_fcmTokens u (fcmTokens u ++ [e])).
    assert (H1 : has_id uid u1 = true)
      by (unfold u1; now destruct (holds_token (token e) u)).
    assert (H1h : holds_token (token e') u1 = true).
    { rewrite He. unfold u1. destruct (holds_token (token e) u) eqn:Hh;
        [exact Hh|]. now apply holds_token_pushed. }
    rewrite (push_token_here uid e' u1 r H1 Hr). now rewrite H1h.
  - rewrite (push_token_later uid e u r Hu).
    rewrite (push_token_later uid e' u _ Hu).
    f_equal. apply IH. now inversion Hnd.
Qed.

(** X16.  A registration of a device token that fails half way, after the
    push and before the legacy field is written, answers 500; repeating the
    same request then leaves the registry exactly as an undisturbed
    registration would have left it. *)
Theorem device_token_retry env uid tk pf w :
  truthy tk = true ->
  NoDup (map _id (users w)) ->
  storage_fails env (clock w) = false ->
  storage_fails env (S (clock w)) = true ->
  storage_fails env (S (S (clock w))) = false ->
  storage_fails env (S (S (S (clock w)))) = false ->
  fst (post_device_token env uid tk pf w) = mkResponse 500 (Text "Server error")
  /\ users (snd (post_device_token env uid tk pf
                   (snd (post_device_token env uid tk pf w))))
     = added uid tk (or_default pf "") (clock w) (users w).
Proof.
  intros Ht Hnd H1 H2 H3 H4.
  assert (Hfirst : post_device_token env uid tk pf w
            = (mkResponse 500 (Text "Server error"),
               mkWorld (push_token uid
                          (mkTokenEntry tk (or_default pf "") (clock w))
                          (users w))
                       (tasks w) (S (S (clock w)))
                       (trace w ++ [EvPush uid tk; EvSetLegacy uid tk]))).
  { unfold post_device_token, respond, bind, now, update, storage; simpl.
    rewrite Ht; simpl. rewrite H1; simpl. rewrite H2; simpl.
    unfold set_users, called; simpl. now rewrite <- app_assoc. }
  rewrite Hfirst. cbn [fst snd]. split; [reflexivity|].
  set (w1 := mkWorld _ (tasks w) (S (S (clock w))) _).
  rewrite (post_device_token_run env uid tk pf w1 Ht H3 H4).
  cbn [snd users clock w1]. unfold added.
  now rewrite push_token_twice.
Qed.

Lemma device_token_retry_witness :
  users (snd (post_device_token
                (Sample.env_with (Sample.only 1) (HttpReply 200 "{ok}"))
                "u3" "tokC" "ios"
                (snd (post_device_token
                        (Sample.env_with (Sample.only 1) (HttpReply 200 "{ok}"))
                        "u3" "tokC" "ios" Sample.start))))
  = added "u3" "tokC" (or_default "ios" "") (clock Sample.start)
          (users Sample.start).
Proof.
  apply (device_token_retry
           (Sample.env_with (Sample.only 1) (HttpReply 200 "{ok}"))
           "u3" "tokC" "ios" Sample.start); try reflexivity.
  repeat constructor; simpl; intuition discriminate.
Defined.

(** X17.  No notification goes out for a task that the endpoint did not
    finish storing: when the save is rejected, the answer is 500, no task
    is in the collection and no send was made. *)
Theorem unsaved_task_is_not_announced env uid ttl desc a w :
  blank ttl = false ->
  storage_fails env (clock w) = true ->
  post_tasks env uid ttl desc a w
  = (mkResponse 500 (ErrorBody "Server error"),
     called (EvSaveTask (fresh_id env (clock w))) w)
  /\ count is_send (trace (called (EvSaveTask (fresh_id env (clock w))) w))
     = count is_send (trace w).
Proof.
  intros Hb H1. split.
  - unfold post_tasks, respond.
    rewrite (not_blank_truthy _ Hb), Hb.
    unfold bind, now, Task_save, storage.
    cbn -[sendTaskAssignedNotifications]. now rewrite H1.
  - rewrite count_called. cbn. lia.
Qed.

Lemma unsaved_task_is_not_announced_witness :
  post_tasks (Sample.env_with (Sample.only 0) (HttpReply 200 "{ok}"))
             "u0" "Fix the build" "" (Assignees ["u1"]) Sample.start
  = (mkResponse 500 (ErrorBody "Server error"),
     called (EvSaveTask "id0") Sample.start).
Proof.
  apply (unsaved_task_is_not_announced
           (Sample.env_with (Sample.only 0) (HttpReply 200 "{ok}"))
           "u0" "Fix the build" "" (Assignees ["u1"]) Sample.start);
    reflexivity.
Defined.






